(** * tafsir_processor: a shallow embedding of [src/tafsir_processor.py]

    The development follows the Python module top-down:

    - [Str]: Python [str] values and the methods the module calls
      ([strip], [lower], [isalpha], [isdigit], [int], f-string rendering);
    - [Re]: the fragment of the [re] module the four patterns of the
      module need, as a backtracking matcher with capture groups;
    - [Dict]: insertion-ordered dictionaries;
    - the processor itself: [parse_sura_info], [extract_themes],
      [advanced_analysis], [save_sura_analysis], [process_tafsir_file],
      in a small state-and-exception monad;
    - the properties of the specification.

    Characters.  A character is a code point below 256, held in an [ascii]
    (read as Latin-1).  The classes below are the Unicode ones restricted
    to that range; text with code points above 255 is outside the model. *)

From Stdlib Require Import String Ascii.
From Stdlib Require Import List Bool Arith Lia ZArith.
From Stdlib Require Import Sorting.Sorted Sorting.Permutation.
From Stdlib Require Import Numbers.DecimalString.
Import ListNotations.

(* ================================================================== *)
(** * Python strings *)
(* ================================================================== *)

Module Str.

(** A Python [str]: a sequence of code points. *)
Definition str := list ascii.

(** String literals of the source are written [py "..."]. *)
Definition py (s : string) : str := list_ascii_of_string s.

Definition code (c : ascii) : nat := nat_of_ascii c.

Definition between (lo hi : nat) (c : ascii) : bool :=
  (lo <=? code c) && (code c <=? hi).

Definition eqc (a b : ascii) : bool := Ascii.eqb a b.

Fixpoint eqs (a b : str) : bool :=
  match a, b with
  | [], [] => true
  | x :: a', y :: b' => eqc x y && eqs a' b'
  | _, _ => false
  end.

(** [Py_UNICODE_ISSPACE]: what [str.strip()], [str.isspace()] and the
    pattern [\s] use.  Below 256: TAB..CR, FS..US, SPACE, NEL, NBSP. *)
Definition isspace (c : ascii) : bool :=
  between 9 13 c || between 28 31 c || (code c =? 32)
  || (code c =? 133) || (code c =? 160).

(** Unicode category Nd, what the pattern [\d] and [int()] accept:
    below 256 only the digits 0-9. *)
Definition isdecimal (c : ascii) : bool := between 48 57 c.

(** [str.isdigit()] per character: decimal digits, and the characters
    of Numeric_Type=Digit; below 256 those are the superscripts
    U+00B2, U+00B3 and U+00B9. *)
Definition isdigit_char (c : ascii) : bool :=
  isdecimal c || (code c =? 178) || (code c =? 179) || (code c =? 185).

(** [str.isalpha()] per character: the letter categories; below 256
    A-Z, a-z, U+00AA, U+00B5, U+00BA, U+00C0-D6, U+00D8-F6, U+00F8-FF. *)
Definition isalpha_char (c : ascii) : bool :=
  between 65 90 c || between 97 122 c
  || (code c =? 170) || (code c =? 181) || (code c =? 186)
  || between 192 214 c || between 216 246 c || between 248 255 c.

(** [s.isdigit()], [s.isalpha()]: every character, and at least one. *)
Definition isdigit (s : str) : bool :=
  match s with [] => false | _ => forallb isdigit_char s end.

Definition isalpha (s : str) : bool :=
  match s with [] => false | _ => forallb isalpha_char s end.

(** [str.lower()] per character: A-Z, U+00C0-D6 and U+00D8-DE move up
    by 32; everything else below 256 is unchanged. *)
Definition lower_char (c : ascii) : ascii :=
  if between 65 90 c || between 192 214 c || between 216 222 c
  then ascii_of_nat (code c + 32) else c.

Definition lower (s : str) : str := map lower_char s.

Fixpoint dropwhile (p : ascii -> bool) (s : str) : str :=
  match s with
  | c :: s' => if p c then dropwhile p s' else s
  | [] => []
  end.

Fixpoint takewhile (p : ascii -> bool) (s : str) : str :=
  match s with
  | c :: s' => if p c then c :: takewhile p s' else []
  | [] => []
  end.

Definition lstrip (s : str) : str := dropwhile isspace s.
Definition rstrip (s : str) : str := rev (dropwhile isspace (rev s)).

(** [s.strip()] *)
Definition strip (s : str) : str := rstrip (lstrip s).

(** Truthiness of a string: non-empty. *)
Definition truthy (s : str) : bool :=
  match s with [] => false | _ => true end.

(** ** [int(s)]

    Surrounding whitespace is dropped, one sign is allowed, and the
    body is made of decimal digits, with single underscores allowed
    between digits.  A body with more than [max_str_digits] digits is
    refused (the interpreter's limit on the conversion of decimal
    strings, 4300 digits unless configured otherwise; sign and
    underscores do not count, leading zeros do).  Anything else is a
    [ValueError] as well ([None] here). *)

Definition digit_value (c : ascii) : Z := Z.of_nat (code c - 48).

(** [int_body acc after_digit s]: the value of the body [s]; [after_digit]
    says whether the previous character was a digit (an underscore is
    only allowed there, and the body may not end with one). *)
Fixpoint int_body (acc : Z) (after_digit : bool) (s : str) : option Z :=
  match s with
  | [] => if after_digit then Some acc else None
  | c :: s' =>
      if isdecimal c then int_body (10 * acc + digit_value c)%Z true s'
      else if eqc c "_"%char && after_digit then
        match s' with
        | d :: _ => if isdecimal d then int_body acc false s' else None
        | [] => None
        end
      else None
  end.

(** [sys.int_info.default_max_str_digits] *)
Definition max_str_digits : nat := 4300.

(** The digits of a body, under the limit. *)
Definition int_digits (body : str) : option Z :=
  if length (filter isdecimal body) <=? max_str_digits
  then int_body 0 false body
  else None.

Definition int (s : str) : option Z :=
  match strip s with
  | c :: body =>
      if eqc c "-"%char then option_map Z.opp (int_digits body)
      else if eqc c "+"%char then int_digits body
      else int_digits (c :: body)
  | [] => None
  end.

(** [str(n)] for an integer [n]. *)
Definition of_int (n : Z) : str := py (NilZero.string_of_int (Z.to_int n)).

End Str.

Import Str.

(* ================================================================== *)
(** * Regular expressions *)
(* ================================================================== *)

(** The patterns of the module use literals, the classes [.], [\s] and
    [\d], the anchor [^], alternation, capture groups, and the
    quantifiers [*], [+] and [+?] applied to a single character class.
    [re] matches by backtracking: the first alternative and the greedy
    (or lazy) choice are tried first, and the first success wins.  The
    matcher below is that search, written with an explicit continuation
    for the rest of the pattern. *)

Module Re.

Inductive regex : Type :=
| Eps
| Bol                                   (* ^ (no MULTILINE)          *)
| Chr (p : ascii -> bool)               (* one character in a class  *)
| Rep (lazy : bool) (p : ascii -> bool) (* p* (greedy) or p*? (lazy) *)
| Cat (r1 r2 : regex)
| Alt (r1 r2 : regex)
| Grp (r : regex).                      (* ( ... )                   *)

(** ** Pattern syntax *)

(** [.] : any character but a newline (no DOTALL). *)
Definition dot : ascii -> bool := fun c => negb (code c =? 10).

(** A literal character; under [re.I] both cases of a letter. *)
Definition chr (ignorecase : bool) (x : ascii) : regex :=
  Chr (fun c => if ignorecase then eqc (lower_char c) (lower_char x)
                else eqc c x).

Definition opt (r : regex) : regex := Alt r Eps.
Definition star (p : ascii -> bool) : regex := Rep false p.
Definition plus (p : ascii -> bool) : regex := Cat (Chr p) (Rep false p).
Definition plus_lazy (p : ascii -> bool) : regex := Cat (Chr p) (Rep true p).

Fixpoint seq (rs : list regex) : regex :=
  match rs with
  | [] => Eps
  | [r] => r
  | r :: rs' => Cat r (seq rs')
  end.

Definition lit (ignorecase : bool) (s : string) : regex :=
  seq (map (chr ignorecase) (py s)).

Fixpoint alts (rs : list regex) : regex :=
  match rs with
  | [] => Eps
  | [r] => r
  | r :: rs' => Alt r (alts rs')
  end.

(** ** Matching *)

(** A match: the offset where it ends and the text of its groups, in
    the order the groups close (their number, as no pattern here nests
    groups). *)
Definition result : Type := nat * list str.

Definition cont : Type := nat -> str -> list str -> option result.

Definition orelse (a : option result) (b : unit -> option result) :=
  match a with Some x => Some x | None => b tt end.

(** [p*]: as many as possible first, then one fewer, ... *)
Fixpoint rep_greedy (p : ascii -> bool) (i : nat) (s : str)
         (k : nat -> str -> option result) : option result :=
  match s with
  | c :: s' =>
      if p c then orelse (rep_greedy p (S i) s' k) (fun _ => k i s)
      else k i s
  | [] => k i s
  end.

(** [p*?]: none first, then one more, ... *)
Fixpoint rep_lazy (p : ascii -> bool) (i : nat) (s : str)
         (k : nat -> str -> option result) : option result :=
  orelse (k i s)
         (fun _ => match s with
                   | c :: s' => if p c then rep_lazy p (S i) s' k else None
                   | [] => None
                   end).

(** [run r i s g k]: match [r] against [s], the text from offset [i]
    on, with the groups [g] closed so far, then continue with [k]. *)
Fixpoint run (r : regex) (i : nat) (s : str) (g : list str) (k : cont)
  : option result :=
  match r with
  | Eps => k i s g
  | Bol => if i =? 0 then k i s g else None
  | Chr p =>
      match s with
      | c :: s' => if p c then k (S i) s' g else None
      | [] => None
      end
  | Rep lazy p =>
      (if lazy then rep_lazy else rep_greedy) p i s (fun j t => k j t g)
  | Cat r1 r2 => run r1 i s g (fun j t g' => run r2 j t g' k)
  | Alt r1 r2 => orelse (run r1 i s g k) (fun _ => run r2 i s g k)
  | Grp r1 => run r1 i s g (fun j t g' => k j t (g' ++ [firstn (j - i) s]))
  end.

(** A match of [r] starting exactly at offset [i], where [s] is the
    text from there on. *)
Definition match_at (r : regex) (i : nat) (s : str) : option result :=
  run r i s [] (fun j _ g => Some (j, g)).

(** [re.search]: the leftmost offset with a match. *)
Fixpoint search_from (r : regex) (i : nat) (s : str) : option result :=
  orelse (match_at r i s)
         (fun _ => match s with
                   | _ :: s' => search_from r (S i) s'
                   | [] => None
                   end).

Definition search (r : regex) (s : str) : option result :=
  search_from r 0 s.

(** [match.group(n)], [n >= 1]. *)
Definition group (m : result) (n : nat) : str := nth (n - 1) (snd m) [].

(** The non-overlapping matches from left to right, for a pattern that
    cannot match the empty string (both marker patterns need three
    characters): after a match, the scan resumes where it ended;
    [skip] counts the characters of the current match still to pass. *)
Fixpoint finditer_from (r : regex) (i skip : nat) (s : str) : list result :=
  match s with
  | [] => []
  | _ :: s' =>
      match skip with
      | S n => finditer_from r (S i) n s'
      | 0 =>
          match match_at r i s with
          | Some (j, g) => (j, g) :: finditer_from r (S i) (j - i - 1) s'
          | None => finditer_from r (S i) 0 s'
          end
      end
  end.

(** [re.findall] for a pattern with one group: the group of each match. *)
Definition findall (r : regex) (s : str) : list str :=
  map (fun m => group m 1) (finditer_from r 0 0 s).

(** [re.sub(r, repl, s)] for a literal replacement [repl]: the text
    between the matches is kept, each match becomes [repl]. *)
Fixpoint sub_from (r : regex) (repl : str) (i skip : nat) (s : str) : str :=
  match s with
  | [] => []
  | c :: s' =>
      match skip with
      | S n => sub_from r repl (S i) n s'
      | 0 =>
          match match_at r i s with
          | Some (j, _) => repl ++ sub_from r repl (S i) (j - i - 1) s'
          | None => c :: sub_from r repl (S i) 0 s'
          end
      end
  end.

Definition sub (r : regex) (repl : str) (s : str) : str :=
  sub_from r repl 0 0 s.

End Re.

(* ================================================================== *)
(** * Dictionaries and Python values *)
(* ================================================================== *)

(** A Python [dict] keeps its keys in insertion order; assigning to a key
    that is present keeps the key where it is. *)

Module Dict.

Definition dict (V : Type) : Type := list (str * V).

Fixpoint get {V} (k : str) (d : dict V) : option V :=
  match d with
  | [] => None
  | (k', v) :: d' => if eqs k k' then Some v else get k d'
  end.

(** [k in d] *)
Definition mem {V} (k : str) (d : dict V) : bool :=
  match get k d with Some _ => true | None => false end.

(** [d.get(k, default)] *)
Definition get_default {V} (k : str) (default : V) (d : dict V) : V :=
  match get k d with Some v => v | None => default end.

(** [d[k] = v] *)
Fixpoint set {V} (k : str) (v : V) (d : dict V) : dict V :=
  match d with
  | [] => [(k, v)]
  | (k', v') :: d' =>
      if eqs k k' then (k', v) :: d' else (k', v') :: set k v d'
  end.

Definition keys {V} (d : dict V) : list str := map fst d.
Definition items {V} (d : dict V) : list (str * V) := d.

(** [dict(pairs)] *)
Definition of_items {V} (l : list (str * V)) : dict V :=
  fold_left (fun d kv => set (fst kv) (snd kv) d) l [].

End Dict.

(** The values the processor builds and hands to [json.dump]. *)
#[warnings="-register-all"] Inductive pyval : Type :=
| PNone
| PInt (n : Z)
| PStr (s : str)
| PList (l : list pyval)
| PDict (d : list (str * pyval)).

Definition of_option (o : option str) : pyval :=
  match o with Some s => PStr s | None => PNone end.

(** ** Rendering in an f-string

    [f"{v}"] is [str(v)]: a string is itself, an integer its decimal
    digits, [None] the text [None], and a list or dict its [repr]. *)

Module Format.

Definition hex_digit (n : nat) : ascii :=
  nth n (py "0123456789abcdef") "0"%char.

(** [\xNN] *)
Definition hex_escape (c : ascii) : str :=
  py "\x" ++ [hex_digit (code c / 16); hex_digit (code c mod 16)].

(** Below 256 the characters that [repr] escapes numerically: the
    controls, DEL, U+0080-U+00A0 and the soft hyphen U+00AD. *)
Definition unprintable (c : ascii) : bool :=
  (code c <? 32) || between 127 160 c || (code c =? 173).

Definition repr_char (quote : ascii) (c : ascii) : str :=
  if eqc c quote || eqc c "\"%char then ["\"%char; c]
  else if code c =? 9 then py "\t"
  else if code c =? 10 then py "\n"
  else if code c =? 13 then py "\r"
  else if unprintable c then hex_escape c
  else [c].

Definition repr_str (s : str) : str :=
  let dquote := ascii_of_nat 34 in
  let quote :=
    if existsb (eqc "'"%char) s && negb (existsb (eqc dquote) s)
    then dquote else "'"%char in
  quote :: flat_map (repr_char quote) s ++ [quote].

Fixpoint repr (v : pyval) : str :=
  match v with
  | PNone => py "None"
  | PInt n => of_int n
  | PStr s => repr_str s
  | PList l =>
      py "[" ++
      (fix elems (l : list pyval) : str :=
         match l with
         | [] => []
         | [x] => repr x
         | x :: l' => repr x ++ py ", " ++ elems l'
         end) l ++ py "]"
  | PDict d =>
      py "{" ++
      (fix elems (d : list (str * pyval)) : str :=
         match d with
         | [] => []
         | [(k, x)] => repr_str k ++ py ": " ++ repr x
         | (k, x) :: d' => repr_str k ++ py ": " ++ repr x ++ py ", " ++ elems d'
         end) d ++ py "}"
  end.

Definition fstring (v : pyval) : str :=
  match v with
  | PStr s => s
  | _ => repr v
  end.

End Format.

(* ================================================================== *)
(** * The world around the processor *)
(* ================================================================== *)

(** Exceptions ([Exception] and its subclasses). *)
Inductive exn : Type :=
| ValueError
| OtherError (name : str).

(** An element of the tree [lxml] returns. *)
#[warnings="-register-all"] Inductive element : Type :=
| Element (tag : str) (attrib : Dict.dict str) (children : list element).

Definition tag (e : element) : str := let 'Element t _ _ := e in t.
Definition attrib (e : element) : Dict.dict str := let 'Element _ a _ := e in a.
Definition children (e : element) : list element := let 'Element _ _ c := e in c.

(** [e.findall(name)]: the direct children with that tag. *)
Definition findall (name : string) (e : element) : list element :=
  filter (fun c => eqs (tag c) (py name)) (children e).

(** [e.attrib.get(name)] *)
Definition attrib_get (e : element) (name : string) : option str :=
  Dict.get (py name) (attrib e).

(** Truthiness of [attrib.get(...)]: [None] and the empty string are false. *)
Definition truthy_opt (o : option str) : bool :=
  match o with Some s => truthy s | None => false end.

(** What [self.nlp(text)] returns: the entities (text and label) and the
    noun phrases, whose computation may itself fail. *)
Record Doc : Type := {
  ents : list (str * str);
  noun_chunks : exn + list str
}.

(** The collaborators the module is given: the XML loader, the NLTK
    stopword list and tokenizer, the spaCy pipeline, the output
    directory and the clock.  The clock and the outcome of opening a
    file for writing may depend on the time, counted in clock reads. *)
Record Env : Type := {
  xml_parse : str -> exn + element;
  stopwords_words : exn + list str;
  word_tokenize : str -> exn + list str;
  nlp : str -> exn + Doc;
  open_write : nat -> str -> option exn;
  isoformat_now : nat -> str
}.

(** Records of the log file. *)
Inductive event : Type :=
| InfoStart (file_path : str)
| InfoSaved (sura_index : pyval) (output_file : str)
| InfoCompleted
| ErrorProcessing (file_path : str) (e : exn)
| ErrorNLP (e : exn)
| ErrorThemes (e : exn)
| ErrorSaving (sura_index : pyval) (e : exn).

Record World : Type := {
  log : list event;                 (* oldest first *)
  files : Dict.dict pyval;          (* path -> document written there *)
  clock : nat
}.

(** ** The monad: state and exceptions *)

Definition M (A : Type) : Type := World -> (exn + A) * World.

Definition ret {A} (a : A) : M A := fun w => (inr a, w).

Definition raise {A} (e : exn) : M A := fun w => (inl e, w).

Definition bind {A B} (c : M A) (k : A -> M B) : M B :=
  fun w => match c w with
           | (inr a, w') => k a w'
           | (inl e, w') => (inl e, w')
           end.

(** [try: c  except Exception as e: h e] *)
Definition try_except {A} (c : M A) (h : exn -> M A) : M A :=
  fun w => match c w with
           | (inr a, w') => (inr a, w')
           | (inl e, w') => h e w'
           end.

Notation "x <- c ;; k" := (bind c (fun x => k))
  (at level 61, c at next level, right associativity).
Notation "c ;;; k" := (bind c (fun _ => k))
  (at level 61, right associativity).

Definition lift {A} (r : exn + A) : M A :=
  match r with inr a => ret a | inl e => raise e end.

(** The world after more log records, a clock read, a file written. *)
Definition logged (w : World) (evs : list event) : World :=
  {| log := log w ++ evs; files := files w; clock := clock w |}.

Definition ticked (w : World) : World :=
  {| log := log w; files := files w; clock := S (clock w) |}.

Definition written (w : World) (path : str) (doc : pyval) : World :=
  {| log := log w; files := Dict.set path doc (files w); clock := clock w |}.

Definition logger (ev : event) : M unit :=
  fun w => (inr tt, logged w [ev]).

(** [datetime.datetime.now().isoformat()] *)
Definition datetime_now (env : Env) : M str :=
  fun w => (inr (isoformat_now env (clock w)), ticked w).

(** [with path.open("w") as f: json.dump(doc, f, ...)] *)
Definition write_json (env : Env) (path : str) (doc : pyval) : M unit :=
  fun w => match open_write env (clock w) path with
           | Some e => (inl e, w)
           | None => (inr tt, written w path doc)
           end.

Fixpoint for_each {A} (l : list A) (body : A -> M unit) : M unit :=
  match l with
  | [] => ret tt
  | x :: l' => body x ;;; for_each l' body
  end.

Fixpoint fold_m {A S} (l : list A) (s : S) (body : S -> A -> M S) : M S :=
  match l with
  | [] => ret s
  | x :: l' => s' <- body s x ;; fold_m l' s' body
  end.

(* ================================================================== *)
(** * [MemoryEfficientProcessor] *)
(* ================================================================== *)

Definition OUTPUT_DIR : str := py "output".

(** ** Paths ([pathlib], POSIX flavour)

    A path is kept as its components: the text is cut at the slashes,
    and empty components and the component [.] are dropped ([..] is
    kept).  One leading slash, or three or more, make the root [/];
    exactly two make the root [//]. *)

(** [s.split("/")], with [cur] the component being read. *)
Fixpoint split_slash (cur : str) (s : str) : list str :=
  match s with
  | [] => [cur]
  | c :: s' =>
      if eqc c "/"%char then cur :: split_slash [] s'
      else split_slash (cur ++ [c]) s'
  end.

Definition path_parts (s : str) : list str :=
  filter (fun part => negb (eqs part []) && negb (eqs part (py ".")))
         (split_slash [] s).

Definition path_root (s : str) : str :=
  match s with
  | c1 :: c2 :: c3 :: _ =>
      if eqc c1 "/"%char
      then if eqc c2 "/"%char && negb (eqc c3 "/"%char) then py "//" else py "/"
      else []
  | [c1; c2] =>
      if eqc c1 "/"%char then if eqc c2 "/"%char then py "//" else py "/" else []
  | [c1] => if eqc c1 "/"%char then py "/" else []
  | [] => []
  end.

(** ["/".join(parts)] *)
Fixpoint join_slash (parts : list str) : str :=
  match parts with
  | [] => []
  | [part] => part
  | part :: parts' => part ++ py "/" ++ join_slash parts'
  end.

(** [str(Path(dir) / name)]: an absolute [name] replaces [dir]. *)
Definition path_join (dir name : str) : str :=
  let joined :=
    match name, dir with
    | c :: _, _ :: _ => if eqc c "/"%char then name else dir ++ py "/" ++ name
    | [], _ => dir
    | _, [] => name
    end in
  match path_root joined, path_parts joined with
  | [], [] => py "."
  | root, parts => root ++ join_slash parts
  end.

(** ** [parse_sura_info] *)

Definition d_plus := Re.plus isdecimal.          (* \d+  *)
Definition s_star := Re.star isspace.            (* \s*  *)
Definition s_plus := Re.plus isspace.            (* \s+  *)
Definition any_lazy := Re.Grp (Re.plus_lazy Re.dot).   (* (.+?) *)

(** [^\d+\.\s*(.+?)\s+Name\s*\{(.+?)\}\s+Theme\s*\{(.+?)\}], with [re.I] *)
Definition pattern_simple : Re.regex :=
  Re.seq [Re.Bol; d_plus; Re.lit true "."; s_star; any_lazy;
          s_plus; Re.lit true "Name"; s_star;
          Re.lit true "{"; any_lazy; Re.lit true "}";
          s_plus; Re.lit true "Theme"; s_star;
          Re.lit true "{"; any_lazy; Re.lit true "}"].

(** [^\d+\.\s*(.+?)\s+Name\s*\{(.+?)\}\s+Historical Background\s*\{(.+?)\}
     \s+Theme:?\s*\{(.+?)\}\s+Topics and their Interconnection\s*\{(.+?)\}],
    with [re.I] *)
Definition pattern_background : Re.regex :=
  Re.seq [Re.Bol; d_plus; Re.lit true "."; s_star; any_lazy;
          s_plus; Re.lit true "Name"; s_star;
          Re.lit true "{"; any_lazy; Re.lit true "}";
          s_plus; Re.lit true "Historical Background"; s_star;
          Re.lit true "{"; any_lazy; Re.lit true "}";
          s_plus; Re.lit true "Theme"; Re.opt (Re.lit true ":"); s_star;
          Re.lit true "{"; any_lazy; Re.lit true "}";
          s_plus; Re.lit true "Topics and their Interconnection"; s_star;
          Re.lit true "{"; any_lazy; Re.lit true "}"].

Definition patterns : list (Re.regex * list str) :=
  [ (pattern_simple, [py "name"; py "description"; py "theme"]);
    (pattern_background,
     [py "name"; py "description"; py "historical_background"; py "theme";
      py "topics_interconnection"]) ].

Definition enumerate {A} (l : list A) : list (nat * A) :=
  combine (List.seq 0 (length l)) l.

Fixpoint first_match (ps : list (Re.regex * list str)) (text : str)
  : Dict.dict str :=
  match ps with
  | (pattern, keys) :: ps' =>
      match Re.search pattern text with
      | Some m =>
          Dict.of_items
            (map (fun ik => (snd ik, strip (Re.group m (fst ik + 1))))
                 (enumerate keys))
      | None => first_match ps' text
      end
  | [] => [(py "raw", text)]
  end.

Definition parse_sura_info (text : str) : Dict.dict str :=
  let text := strip text in
  first_match patterns text.

(** ** [extract_themes]

    Nothing in the body of the [try] can raise (the four patterns are
    constants), so the handler that returns the empty list is not
    reachable and the function is pure. *)

Definition theme_patterns : list (str * Re.regex) :=
  [ (py "divine mercy",
     Re.alts [Re.lit false "mercy"; Re.lit false "compassion";
              Re.lit false "forgiveness"]);
    (py "prophethood",
     Re.alts [Re.lit false "prophet"; Re.lit false "messenger";
              Re.lit false "revelation"]);
    (py "law",
     Re.alts [Re.lit false "law"; Re.lit false "commandment";
              Re.lit false "decree"]);
    (py "parables",
     Re.alts [Re.lit false "parable"; Re.lit false "example";
              Re.lit false "story"]) ].

Definition extract_themes (text : str) : list str :=
  let lower_text := lower text in
  fold_left (fun themes tp =>
               match Re.search (snd tp) lower_text with
               | Some _ => themes ++ [fst tp]
               | None => themes
               end)
            theme_patterns [].

(** ** [advanced_analysis] *)

Definition contains (w : str) (l : list str) : bool := existsb (eqs w) l.

(** [freq_counts[word] = freq_counts.get(word, 0) + 1] for each word. *)
Definition count_words (words : list str) : Dict.dict Z :=
  fold_left (fun freq_counts word =>
               Dict.set word (Dict.get_default word 0%Z freq_counts + 1)%Z
                        freq_counts)
            words [].

(** [sorted(items, key=lambda item: item[1], reverse=True)]: a stable
    sort, largest count first; items with equal counts keep their
    order. *)
Fixpoint insert_desc (x : str * Z) (l : list (str * Z)) : list (str * Z) :=
  match l with
  | [] => [x]
  | y :: l' =>
      if (snd x <? snd y)%Z then y :: insert_desc x l' else x :: l
  end.

Fixpoint sorted_desc (l : list (str * Z)) : list (str * Z) :=
  match l with
  | [] => []
  | x :: l' => insert_desc x (sorted_desc l')
  end.

(** The NLTK half: the keywords and the frequency distribution. *)
Definition frequency_analysis (stop_words tokens : list str)
  : list str * Dict.dict Z :=
  let words :=
    filter (fun word => isalpha word && negb (contains word stop_words))
           tokens in
  match words with
  | [] => ([], [])
  | _ =>
      let freq_counts := count_words words in
      let freq_dist :=
        Dict.of_items (firstn 20 (sorted_desc (Dict.items freq_counts))) in
      (Dict.keys freq_dist, freq_dist)
  end.

Definition py_strs (l : list str) : pyval := PList (map PStr l).

Definition py_counts (d : Dict.dict Z) : pyval :=
  PDict (map (fun kv => (fst kv, PInt (snd kv))) d).

Definition py_entities (l : list (str * str)) : pyval :=
  PList (map (fun ent => PDict [(py "text", PStr (fst ent));
                                (py "label", PStr (snd ent))]) l).

(** The body of the [try]: [results] as it stands when the body ends,
    and the exception that ended it, if one did. *)
Definition analysis_body (env : Env) (text : str) (results : Dict.dict pyval)
  : option exn * Dict.dict pyval :=
  match stopwords_words env with
  | inl e => (Some e, results)
  | inr stop_words =>
  match word_tokenize env (lower text) with
  | inl e => (Some e, results)
  | inr tokens =>
      let '(keywords, freq_dist) := frequency_analysis stop_words tokens in
      let results := Dict.set (py "keywords") (py_strs keywords) results in
      let results := Dict.set (py "freq_dist") (py_counts freq_dist) results in
      match nlp env text with
      | inl e => (Some e, results)
      | inr doc =>
          let named_entities := py_entities (ents doc) in
          match noun_chunks doc with
          | inl e => (Some e, results)
          | inr chunks =>
              let results :=
                Dict.set (py "named_entities") named_entities results in
              let results :=
                Dict.set (py "noun_chunks") (py_strs chunks) results in
              (None, results)
          end
      end
  end
  end.

Definition advanced_analysis (env : Env) (text : str) : M (Dict.dict pyval) :=
  let '(failure, results) := analysis_body env text [] in
  match failure with
  | Some e => logger (ErrorNLP e) ;;; ret results
  | None => ret results
  end.

(** ** [process_tafsir_file] *)

(** [\{(\d+)\}] and [\{\d+\}] *)
Definition marker_group : Re.regex :=
  Re.seq [Re.lit false "{"; Re.Grp d_plus; Re.lit false "}"].

Definition marker : Re.regex :=
  Re.seq [Re.lit false "{"; d_plus; Re.lit false "}"].

(** The dict literal [aya_entry]. *)
Record AyaEntry : Type := {
  aya_index : option str;
  raw_text : str;
  clean_text : str;
  markers : list str;
  footers : Dict.dict str;
  analysis : Dict.dict pyval
}.

Definition py_dict_str (d : Dict.dict str) : pyval :=
  PDict (map (fun kv => (fst kv, PStr (snd kv))) d).

Definition aya_to_py (a : AyaEntry) : pyval :=
  PDict [ (py "aya_index", of_option (aya_index a));
          (py "raw_text", PStr (raw_text a));
          (py "clean_text", PStr (clean_text a));
          (py "markers", py_strs (markers a));
          (py "footers", py_dict_str (footers a));
          (py "analysis", PDict (analysis a)) ].

(** The footer elements of a sura, keyed by their index. *)
Definition collect_footers (sura : element) : Dict.dict str :=
  fold_left (fun footer_mapping child =>
               let f_index := attrib_get child "index" in
               let f_text := attrib_get child "text" in
               if truthy_opt f_index && truthy_opt f_text then
                 match f_index, f_text with
                 | Some i, Some t => Dict.set i t footer_mapping
                 | _, _ => footer_mapping
                 end
               else footer_mapping)
            (findall "footer" sura) [].

(** [for marker in markers: if marker in footer_mapping: ...] *)
Definition link_footers (markers : list str) (footer_mapping : Dict.dict str)
  : Dict.dict str :=
  fold_left (fun footers marker =>
               match Dict.get marker footer_mapping with
               | Some commentary => Dict.set marker commentary footers
               | None => footers
               end)
            markers [].

(** The [else] branch of the aya loop: one verse record. *)
Definition process_aya (env : Env) (footer_mapping : Dict.dict str)
           (aya_index : option str) (text_attr : str) : M AyaEntry :=
  let markers := Re.findall marker_group text_attr in
  let clean_text := strip (Re.sub marker [] text_attr) in
  let footers := link_footers markers footer_mapping in
  advanced_results <- advanced_analysis env clean_text ;;
  let analysis :=
    Dict.set (py "themes") (py_strs (extract_themes clean_text))
             advanced_results in
  timestamp <- datetime_now env ;;
  let analysis :=
    Dict.set (py "advanced_analysis_timestamp") (PStr timestamp) analysis in
  ret {| aya_index := aya_index;
         raw_text := text_attr;
         clean_text := clean_text;
         markers := markers;
         footers := footers;
         analysis := analysis |}.

(** [aya_index == "0"] *)
Definition is_header (aya_index : option str) : bool :=
  match aya_index with Some i => eqs i (py "0") | None => false end.

(** One turn of the aya loop, on [(sura_info, aya_entries)]. *)
Definition aya_step (env : Env) (footer_mapping : Dict.dict str)
           (acc : Dict.dict str * list AyaEntry) (aya : element)
  : M (Dict.dict str * list AyaEntry) :=
  let aya_index := attrib_get aya "index" in
  match attrib_get aya "text" with
  | None => ret acc
  | Some text_attr =>
      if negb (truthy text_attr) then ret acc
      else if is_header aya_index then
        ret (parse_sura_info text_attr, snd acc)
      else
        aya_entry <- process_aya env footer_mapping aya_index text_attr ;;
        ret (fst acc, snd acc ++ [aya_entry])
  end.

(** [int(sura_index) if sura_index and sura_index.isdigit() else sura_index] *)
Definition sura_index_value (sura_index : option str) : M pyval :=
  match sura_index with
  | Some s =>
      if truthy s && isdigit s then
        match int s with
        | Some n => ret (PInt n)
        | None => raise ValueError
        end
      else ret (PStr s)
  | None => ret PNone
  end.

(** The body of the sura loop up to the dict [sura_output]. *)
Definition assemble_sura (env : Env) (qurantafseer_name : str) (sura : element)
  : M (Dict.dict pyval) :=
  let sura_index := attrib_get sura "index" in
  let footer_mapping := collect_footers sura in
  acc <- fold_m (findall "aya" sura) ([], []) (aya_step env footer_mapping) ;;
  index <- sura_index_value sura_index ;;
  processed <- datetime_now env ;;
  ret [ (py "qurantafseer", PStr qurantafseer_name);
        (py "sura_index", index);
        (py "sura_info", py_dict_str (fst acc));
        (py "ayah", PList (map aya_to_py (snd acc)));
        (py "metadata", PDict [ (py "processed_timestamp", PStr processed);
                                (py "version", PStr (py "2.0")) ]) ].

(** ** [save_sura_analysis]

    The file holds the dict itself: [json.dump] renders it, and cannot
    fail on values of [pyval]. *)

(** [sura_analysis.get("sura_index", "unknown")] *)
Definition sura_index_of (sura_analysis : Dict.dict pyval) : pyval :=
  Dict.get_default (py "sura_index") (PStr (py "unknown")) sura_analysis.

(** [OUTPUT_DIR / f"sura_{sura_index}.json"] *)
Definition output_file_of (sura_analysis : Dict.dict pyval) : str :=
  path_join OUTPUT_DIR
            (py "sura_" ++ Format.fstring (sura_index_of sura_analysis)
                ++ py ".json").

Definition save_sura_analysis (env : Env) (sura_analysis : Dict.dict pyval)
  : M unit :=
  try_except
    (let sura_index := sura_index_of sura_analysis in
     let output_file := output_file_of sura_analysis in
     write_json env output_file (PDict sura_analysis) ;;;
     logger (InfoSaved sura_index output_file))
    (fun e =>
       logger (ErrorSaving
                 (Dict.get_default (py "sura_index") PNone sura_analysis) e)).

Definition sura_loop (env : Env) (qurantafseer_name : str)
           (suras : list element) : M unit :=
  for_each suras
           (fun sura =>
              sura_output <- assemble_sura env qurantafseer_name sura ;;
              save_sura_analysis env sura_output).

(** [root.attrib.get("name", "Unknown")] *)
Definition qurantafseer_name_of (root : element) : str :=
  Dict.get_default (py "name") (py "Unknown") (attrib root).

Definition process_tafsir_file (env : Env) (file_path : str) : M unit :=
  logger (InfoStart file_path) ;;;
  try_except
    (root <- lift (xml_parse env file_path) ;;
     let qurantafseer_name := qurantafseer_name_of root in
     sura_loop env qurantafseer_name (findall "sura" root) ;;;
     logger InfoCompleted)
    (fun e => logger (ErrorProcessing file_path e) ;;; raise e).

(** A computation that writes no file. *)
Definition keeps_files {A} (c : M A) : Prop :=
  forall w, files (snd (c w)) = files w.

(* ================================================================== *)
(** * The specification's notions *)
(* ================================================================== *)

(** These definitions follow the words of the specification, not the
    code; the properties below compare the two. *)

Module Spec.

(** A marker: a brace-delimited integer, [{] digits [}]. *)
Definition is_marker (m : str) : Prop :=
  exists digits,
    digits <> [] /\ forallb isdecimal digits = true /\
    m = py "{" ++ digits ++ py "}".

(** The text has a substring that is a marker. *)
Definition contains_marker (s : str) : Prop :=
  exists before m after, is_marker m /\ s = before ++ m ++ after.

(** The marker that starts at the head of [s]: its digits, and the
    text after its closing brace. *)
Definition marker_here (s : str) : option (str * str) :=
  match s with
  | c :: t =>
      if eqc c "{"%char then
        match takewhile isdecimal t, dropwhile isdecimal t with
        | d :: digits, c' :: rest =>
            if eqc c' "}"%char then Some (d :: digits, rest) else None
        | _, _ => None
        end
      else None
  | [] => None
  end.

(** The brace-integers found in the text: one for every offset at
    which a marker starts, in the order of the offsets. *)
Fixpoint markers_found (s : str) : list str :=
  match s with
  | [] => []
  | _ :: s' =>
      match marker_here s with
      | Some (digits, _) => digits :: markers_found s'
      | None => markers_found s'
      end
  end.

(** The text with every marker removed: the characters that no marker
    covers.  [cover] is the number of characters from here on that a
    marker met earlier still covers. *)
Fixpoint without_markers (cover : nat) (s : str) : str :=
  match s with
  | [] => []
  | c :: s' =>
      let here := match marker_here s with
                  | Some (digits, _) => length digits + 2
                  | None => 0
                  end in
      match Nat.max cover here with
      | 0 => c :: without_markers 0 s'
      | S n => without_markers n s'
      end
  end.

(** Every opening brace of the text opens a marker. *)
Fixpoint braces_open_markers (s : str) : bool :=
  match s with
  | [] => true
  | c :: s' =>
      (if eqc c "{"%char
       then match marker_here s with Some _ => true | None => false end
       else true)
      && braces_open_markers s'
  end.

(** None of the next [n] characters is an opening brace. *)
Definition no_open (n : nat) (s : str) : bool :=
  forallb (fun c => negb (eqc c "{"%char)) (firstn n s).

(** A word that the frequency analysis counts. *)
Definition qualifies (stop_words : list str) (word : str) : bool :=
  isalpha word && negb (contains word stop_words).

(** How often [w] occurs among the words. *)
Fixpoint occurrences (w : str) (words : list str) : Z :=
  match words with
  | [] => 0
  | x :: words' =>
      ((if eqs w x then 1 else 0) + occurrences w words')%Z
  end.

(** Where [w] is first met among the words. *)
Fixpoint first_index (w : str) (words : list str) : nat :=
  match words with
  | [] => 0
  | x :: words' => if eqs w x then 0 else S (first_index w words')
  end.

(** The ranking of the keywords: [a] may stand before [b] when it is
    at least as frequent and, if they are equally frequent, was met
    first. *)
Definition ranks_before (words : list str) (a b : str) : Prop :=
  (occurrences b words <= occurrences a words)%Z /\
  (occurrences a words = occurrences b words ->
   first_index a words < first_index b words).

(** The same on counted items, for an order [Q] of the items. *)
Definition ranked_items (Q : str * Z -> str * Z -> Prop) (p q : str * Z)
  : Prop :=
  (snd q <= snd p)%Z /\ (snd p = snd q -> Q p q).

(** The integer that a string of decimal digits writes. *)
Definition decimal_value (s : str) : Z :=
  fold_left (fun acc c => (10 * acc + digit_value c)%Z) s 0%Z.

(** A verse or footnote unit that has the attribute, with the empty
    string as its value. *)
Definition has_empty (u : element) (name : string) : Prop :=
  attrib_get u name = Some [].

Definition lacks (u : element) (name : string) : Prop :=
  attrib_get u name = None.

End Spec.

(* ================================================================== *)
(** * Sample inputs *)
(* ================================================================== *)

Module Sample.

Definition world0 : World := {| log := []; files := []; clock := 0 |}.

Definition superscript_two : str := [ascii_of_nat 178].

Definition sura (index : option str) (units : list element) : element :=
  Element (py "sura")
          (match index with Some i => [(py "index", i)] | None => [] end)
          units.

Definition aya (index text : string) : element :=
  Element (py "aya") [(py "index", py index); (py "text", py text)] [].

Definition footer (index text : string) : element :=
  Element (py "footer") [(py "index", py index); (py "text", py text)] [].

Definition root (suras : list element) : element :=
  Element (py "qurantafseer") [(py "name", py "Sayyid Abul Ala Maududi")] suras.

(** Whitespace tokenizer, a four-word stopword list, a pipeline that
    finds nothing, a disk that takes every file. *)
Fixpoint split_spaces (cur : str) (s : str) : list str :=
  match s with
  | [] => match cur with [] => [] | _ => [cur] end
  | c :: s' =>
      if isspace c
      then match cur with [] => split_spaces [] s' | _ => cur :: split_spaces [] s' end
      else split_spaces (cur ++ [c]) s'
  end.

Definition env_of (doc : element) (nlp_result : exn + Doc)
           (disk : str -> option exn) : Env :=
  {| xml_parse := fun _ => inr doc;
     stopwords_words := inr [py "he"; py "is"; py "and"; py "a"];
     word_tokenize := fun s => inr (split_spaces [] s);
     nlp := fun _ => nlp_result;
     open_write := fun _ => disk;
     isoformat_now := fun n => py "2024-01-01T00:00:0" ++ of_int (Z.of_nat n) |}.

Definition quiet_doc : Doc := {| ents := []; noun_chunks := inr [] |}.

Definition good_disk : str -> option exn := fun _ => None.

(** A disk that refuses one path. *)
Definition disk_without (path : string) : str -> option exn :=
  fun p => if eqs p (py path) then Some (OtherError (py "PermissionError"))
           else None.

Definition file_path : str := py "data/maududi-tafsir.xml".

(** A chapter with no index attribute. *)
Definition doc_no_index : element :=
  root [sura None [aya "1" "Praise is only for Allah {1}"]].

(** Chapters 1, superscript two, 3. *)
Definition doc_superscript : element :=
  root [sura (Some (py "1")) [aya "1" "first"];
        sura (Some superscript_two) [aya "1" "second"];
        sura (Some (py "3")) [aya "1" "third"]].

Definition doc_two : element :=
  root [sura (Some (py "2")) []; sura (Some (py "1-3")) []].

Definition env_no_index : Env := env_of doc_no_index (inr quiet_doc) good_disk.
Definition env_superscript : Env := env_of doc_superscript (inr quiet_doc) good_disk.
Definition env_two : Env := env_of doc_two (inr quiet_doc) good_disk.
Definition env_failing_nlp : Env :=
  env_of doc_two (inl (OtherError (py "RuntimeError"))) good_disk.
Definition env_bad_disk : Env :=
  env_of doc_two (inr quiet_doc) (disk_without "output/sura_2.json").

(** The chapters 1, superscript two, 3, and a disk that refuses the
    file of chapter 1. *)
Definition env_both : Env :=
  env_of doc_superscript (inr quiet_doc) (disk_without "output/sura_1.json").

Definition sura_1 : element := sura (Some (py "1")) [aya "1" "first"].
Definition sura_sup : element := sura (Some superscript_two) [aya "1" "second"].
Definition sura_3 : element := sura (Some (py "3")) [aya "1" "third"].

End Sample.

(* ================================================================== *)
(** * Notions for the further properties *)
(* ================================================================== *)

Module Text.

(** [w] stands at the head of [s]. *)
Fixpoint prefix (w s : str) : bool :=
  match w, s with
  | [], _ => true
  | x :: w', c :: s' => eqc c x && prefix w' s'
  | _ :: _, [] => false
  end.

(** [p] holds of [s] or of one of its suffixes. *)
Fixpoint anywhere (p : str -> bool) (s : str) : bool :=
  p s || match s with
         | [] => false
         | _ :: s' => anywhere p s'
         end.

(** [w in s] *)
Definition substring (w s : str) : bool := anywhere (prefix w) s.

(** The words behind each theme, in the order of [theme_patterns]. *)
Definition theme_words : list (str * list str) :=
  [ (py "divine mercy", [py "mercy"; py "compassion"; py "forgiveness"]);
    (py "prophethood", [py "prophet"; py "messenger"; py "revelation"]);
    (py "law", [py "law"; py "commandment"; py "decree"]);
    (py "parables", [py "parable"; py "example"; py "story"]) ].

(** The sum of the counts of a frequency distribution. *)
Definition total (d : Dict.dict Z) : Z := fold_right Z.add 0%Z (map snd d).

(** No whitespace at either end. *)
Definition trimmed (s : str) : Prop :=
  (forall c rest, s = c :: rest -> isspace c = false) /\
  (forall c init, s = init ++ [c] -> isspace c = false).

End Text.

Module Chapter.

Definition text_of (u : element) : str :=
  match attrib_get u "text" with Some t => t | None => [] end.

Definition has_text (u : element) : bool := truthy_opt (attrib_get u "text").

(** The verse units that give a verse record, and the header units. *)
Definition verse_units (sura : element) : list element :=
  filter (fun u => has_text u && negb (is_header (attrib_get u "index")))
         (findall "aya" sura).

Definition header_units (sura : element) : list element :=
  filter (fun u => has_text u && is_header (attrib_get u "index"))
         (findall "aya" sura).

(** The footnote units with the index [k], a non-empty index and a
    non-empty text. *)
Definition footers_for (k : str) (sura : element) : list element :=
  filter (fun u =>
            truthy_opt (attrib_get u "index") && truthy_opt (attrib_get u "text")
            && match attrib_get u "index" with
               | Some i => eqs k i
               | None => false
               end)
         (findall "footer" sura).

(** An index that [isdigit] accepts and [int] rejects. *)
Definition bad_index (sura : element) : bool :=
  match attrib_get sura "index" with
  | Some s => isdigit s && match int s with Some _ => false | None => true end
  | None => false
  end.

(** The value stored under [sura_index] for a chapter whose index is
    not a bad one. *)
Definition index_py (sura : element) : pyval :=
  match attrib_get sura "index" with
  | Some s =>
      if isdigit s
      then match int s with Some n => PInt n | None => PNone end
      else PStr s
  | None => PNone
  end.

(** The chapters a run gets to: those before the first bad index. *)
Fixpoint processed (suras : list element) : list element :=
  match suras with
  | [] => []
  | sura :: rest => if bad_index sura then [] else sura :: processed rest
  end.

(** The chapter indices of the save records of a log, in order. *)
Definition saves (l : list event) : list pyval :=
  flat_map (fun ev => match ev with
                      | InfoSaved i _ => [i]
                      | ErrorSaving i _ => [i]
                      | _ => []
                      end) l.

(** The path of the file of a chapter with the index value [v]. *)
Definition file_name (v : pyval) : str :=
  path_join OUTPUT_DIR (py "sura_" ++ Format.fstring v ++ py ".json").

(** An environment whose pipeline finds an entity and then fails on the
    noun phrases. *)
Definition env_chunks_fail : Env :=
  Sample.env_of Sample.doc_two
    (inr {| ents := [(py "Allah", py "PERSON")];
            noun_chunks := inl (OtherError (py "ValueError")) |})
    Sample.good_disk.

(** An environment whose loader fails on every path. *)
Definition env_unreadable : Env :=
  {| xml_parse := fun _ => inl (OtherError (py "OSError"));
     stopwords_words := inr [];
     word_tokenize := fun s => inr [s];
     nlp := fun _ => inl (OtherError (py "RuntimeError"));
     open_write := fun _ _ => None;
     isoformat_now := fun _ => py "2024-01-01T00:00:00" |}.

End Chapter.

(* ================================================================== *)
(** * Basic facts *)
(* ================================================================== *)

Lemma eqc_spec (a b : ascii) : eqc a b = true <-> a = b.
Proof. unfold eqc. apply Ascii.eqb_eq. Qed.

Lemma eqs_spec (a b : str) : eqs a b = true <-> a = b.
Proof.
  revert b; induction a as [|x a IH]; intros [|y b]; simpl;
    try (split; [discriminate | discriminate]); try tauto.
  rewrite andb_true_iff, eqc_spec, IH.
  split; [intros [-> ->]; reflexivity | intros H; inversion H; auto].
Qed.

Lemma eqs_refl (a : str) : eqs a a = true.
Proof. apply eqs_spec; reflexivity. Qed.

Lemma eqs_neq (a b : str) : eqs a b = false <-> a <> b.
Proof.
  rewrite <- eqs_spec. destruct (eqs a b); split; congruence.
Qed.

Lemma eqs_sym (a b : str) : eqs a b = eqs b a.
Proof.
  destruct (eqs a b) eqn:E.
  - apply eqs_spec in E; subst; symmetry; apply eqs_refl.
  - symmetry; apply eqs_neq; apply eqs_neq in E; congruence.
Qed.

Lemma contains_spec (w : str) (l : list str) : contains w l = true <-> In w l.
Proof.
  unfold contains. rewrite existsb_exists. split.
  - intros (x & Hx & E). apply eqs_spec in E; subst; assumption.
  - intros H. exists w. split; [assumption | apply eqs_refl].
Qed.

Lemma contains_false (w : str) (l : list str) :
  contains w l = false <-> ~ In w l.
Proof.
  rewrite <- contains_spec. destruct (contains w l); split; congruence.
Qed.

Module DictFacts.
Import Dict.

Section Facts.
Context {V : Type}.
Implicit Types (d : dict V) (k : str) (v : V).

Lemma get_set_same k v d : get k (set k v d) = Some v.
Proof.
  induction d as [|[k' v'] d IH]; simpl.
  - now rewrite eqs_refl.
  - destruct (eqs k k') eqn:E; simpl; rewrite E; auto.
Qed.

Lemma get_set_other k k' v d :
  eqs k k' = false -> get k (set k' v d) = get k d.
Proof.
  intros N. induction d as [|[k0 v0] d IH]; simpl.
  - now rewrite N.
  - destruct (eqs k' k0) eqn:E; simpl.
    + apply eqs_spec in E; subst k0. now rewrite N.
    + destruct (eqs k k0); auto.
Qed.

Lemma get_In k d : get k d <> None <-> In k (keys d).
Proof.
  induction d as [|[k' v'] d IH]; simpl.
  - tauto.
  - destruct (eqs k k') eqn:E.
    + apply eqs_spec in E; subst. split; [auto | discriminate].
    + apply eqs_neq in E. rewrite IH. split; [auto | intros [H|H]; congruence].
Qed.

Lemma get_None k d : get k d = None <-> ~ In k (keys d).
Proof.
  rewrite <- get_In. destruct (get k d); intuition congruence.
Qed.

Lemma mem_In k d : mem k d = true <-> In k (keys d).
Proof.
  unfold mem. rewrite <- get_In. destruct (get k d); intuition congruence.
Qed.

Lemma In_get k v d : NoDup (keys d) -> In (k, v) d -> get k d = Some v.
Proof.
  induction d as [|[k' v'] d IH]; simpl; intros ND HIn; [tauto|].
  inversion ND as [|? ? Hn ND']; subst.
  destruct HIn as [E | HIn].
  - inversion E; subst. now rewrite eqs_refl.
  - destruct (eqs k k') eqn:E.
    + apply eqs_spec in E; subst k'. exfalso. apply Hn.
      change k with (fst (k, v)). now apply in_map.
    + auto.
Qed.

Lemma get_Some_In k v d : get k d = Some v -> In (k, v) d.
Proof.
  induction d as [|[k' v'] d IH]; simpl; [discriminate|].
  destruct (eqs k k') eqn:E.
  - apply eqs_spec in E; subst. intros H; inversion H; auto.
  - auto.
Qed.

Lemma set_new k v d : ~ In k (keys d) -> set k v d = d ++ [(k, v)].
Proof.
  induction d as [|[k' v'] d IH]; simpl; intros N; [reflexivity|].
  destruct (eqs k k') eqn:E.
  - apply eqs_spec in E; subst. tauto.
  - f_equal. apply IH. tauto.
Qed.

Lemma keys_set_old k v d : In k (keys d) -> keys (set k v d) = keys d.
Proof.
  induction d as [|[k' v'] d IH]; simpl; intros H; [tauto|].
  destruct (eqs k k') eqn:E; simpl; [reflexivity|].
  f_equal. apply IH. apply eqs_neq in E. destruct H; congruence.
Qed.

Lemma keys_set k v d :
  keys (set k v d) = if contains k (keys d) then keys d else keys d ++ [k].
Proof.
  destruct (contains k (keys d)) eqn:E.
  - apply keys_set_old. now apply contains_spec.
  - apply contains_false in E. rewrite set_new by assumption.
    unfold keys. now rewrite map_app.
Qed.

Lemma NoDup_keys_set k v d : NoDup (keys d) -> NoDup (keys (set k v d)).
Proof.
  intros ND. rewrite keys_set. destruct (contains k (keys d)) eqn:E; auto.
  apply contains_false in E.
  apply NoDup_rev in ND. rewrite <- (rev_involutive (keys d ++ [k])).
  apply NoDup_rev. rewrite rev_app_distr. simpl. constructor; auto.
  now rewrite <- in_rev.
Qed.

(** [dict(pairs)] is [pairs] itself when no key repeats. *)
Lemma of_items_app (l acc : list (str * V)) :
  NoDup (keys (acc ++ l)) ->
  fold_left (fun d kv => set (fst kv) (snd kv) d) l acc = acc ++ l.
Proof.
  revert acc; induction l as [|[k v] l IH]; intros acc ND; simpl.
  - now rewrite app_nil_r.
  - replace (acc ++ (k, v) :: l) with ((acc ++ [(k, v)]) ++ l) in *
      by now rewrite <- app_assoc.
    rewrite set_new.
    + now apply IH.
    + unfold keys in ND. rewrite !map_app in ND. simpl in ND.
      apply NoDup_app_remove_r in ND.
      rewrite <- (rev_involutive (map fst acc ++ [k])) in ND.
      apply NoDup_rev in ND. rewrite rev_involutive, rev_app_distr in ND.
      simpl in ND. inversion ND; subst. now rewrite in_rev.
Qed.

Lemma of_items_nodup (l : list (str * V)) :
  NoDup (keys l) -> of_items l = l.
Proof. intros ND. unfold of_items. now rewrite of_items_app. Qed.

End Facts.
End DictFacts.

(* ================================================================== *)
(** * How the processor runs *)
(* ================================================================== *)

(** The annotator returns whatever the body of its [try] had stored,
    and logs the exception if there was one. *)
Lemma advanced_analysis_runs (env : Env) (text : str) (w : World) :
  advanced_analysis env text w =
  (inr (snd (analysis_body env text [])),
   match fst (analysis_body env text []) with
   | Some e => logged w [ErrorNLP e]
   | None => w
   end).
Proof.
  unfold advanced_analysis.
  destruct (analysis_body env text []) as [[e|] results]; reflexivity.
Qed.

(** A verse record is always produced, with these fields. *)
Lemma process_aya_runs (env : Env) (fm : Dict.dict str) (idx : option str)
      (text : str) (w : World) :
  let clean := strip (Re.sub marker [] text) in
  exists res w1,
    advanced_analysis env clean w = (inr res, w1) /\
    process_aya env fm idx text w =
    (inr {| aya_index := idx;
            raw_text := text;
            clean_text := clean;
            markers := Re.findall marker_group text;
            footers := link_footers (Re.findall marker_group text) fm;
            analysis :=
              Dict.set (py "advanced_analysis_timestamp")
                       (PStr (isoformat_now env (clock w1)))
                       (Dict.set (py "themes") (py_strs (extract_themes clean))
                                 res) |},
     ticked w1).
Proof.
  intros clean. unfold process_aya, bind. fold clean.
  rewrite advanced_analysis_runs.
  eexists _, _. split; reflexivity.
Qed.

Lemma fold_m_app {A S} (l1 l2 : list A) (s : S) (body : S -> A -> M S)
      (w : World) :
  fold_m (l1 ++ l2) s body w =
  bind (fold_m l1 s body) (fun s' => fold_m l2 s' body) w.
Proof.
  revert s w; induction l1 as [|x l1 IH]; intros s w; simpl.
  - reflexivity.
  - unfold bind in *. destruct (body s x w) as [[e|s'] w']; [reflexivity|].
    apply IH.
Qed.

Lemma for_each_app {A} (l1 l2 : list A) (body : A -> M unit) (w : World) :
  for_each (l1 ++ l2) body w =
  bind (for_each l1 body) (fun _ => for_each l2 body) w.
Proof.
  revert w; induction l1 as [|x l1 IH]; intros w; simpl.
  - reflexivity.
  - unfold bind in *. destruct (body x w) as [[e|[]] w']; [reflexivity|].
    apply IH.
Qed.

Lemma findall_app (name : string) (t : str) (a : Dict.dict str)
      (l1 l2 : list element) :
  findall name (Element t a (l1 ++ l2)) =
  findall name (Element t a l1) ++ findall name (Element t a l2).
Proof. unfold findall; simpl. apply filter_app. Qed.

(* ================================================================== *)
(** * Markers and footnotes *)
(* ================================================================== *)





(** A verse unit with a text, and an index other than "0", adds its
    record to the chapter, whatever the annotation services do. *)
Lemma aya_step_emits (env : Env) (fm : Dict.dict str)
      (acc : Dict.dict str * list AyaEntry) (u : element) (text : str)
      (w : World) :
  attrib_get u "text" = Some text -> truthy text = true ->
  is_header (attrib_get u "index") = false ->
  exists entry w',
    process_aya env fm (attrib_get u "index") text w = (inr entry, w') /\
    aya_step env fm acc u w = (inr (fst acc, snd acc ++ [entry]), w').
Proof.
  intros Ht Hne Hh.
  destruct (process_aya_runs env fm (attrib_get u "index") text w)
    as (res & w1 & _ & E).
  eexists _, _. split; [exact E|].
  unfold aya_step. cbv zeta. rewrite Ht, Hne, Hh. cbn [negb].
  unfold bind at 1. rewrite E. reflexivity.
Qed.

(* ================================================================== *)
(** * Units that are skipped *)
(* ================================================================== *)

Lemma findall_cons (name : string) (t : str) (a : Dict.dict str)
      (u : element) (l : list element) :
  findall name (Element t a (u :: l)) =
  (if eqs (tag u) (py name) then [u] else []) ++ findall name (Element t a l).
Proof. unfold findall; simpl. destruct (eqs (tag u) (py name)); reflexivity. Qed.

(** A verse unit without text, or with the empty text, leaves the state
    of the aya loop as it is, whatever its index. *)
Lemma aya_step_skips (env : Env) (fm : Dict.dict str)
      (acc : Dict.dict str * list AyaEntry) (u : element) (w : World) :
  Spec.has_empty u "text" \/ Spec.lacks u "text" ->
  aya_step env fm acc u w = (inr acc, w).
Proof.
  unfold Spec.has_empty, Spec.lacks, aya_step. intros [H|H]; rewrite H; reflexivity.
Qed.

Lemma collect_footers_skips (t : str) (a : Dict.dict str)
      (pre post : list element) (u : element) :
  tag u = py "aya" \/
  truthy_opt (attrib_get u "index") && truthy_opt (attrib_get u "text") = false ->
  collect_footers (Element t a (pre ++ u :: post)) =
  collect_footers (Element t a (pre ++ post)).
Proof.
  intros H. unfold collect_footers.
  rewrite !findall_app, findall_cons, !fold_left_app.
  destruct (eqs (tag u) (py "footer")) eqn:E; [|reflexivity].
  destruct H as [H|H].
  - rewrite H in E. discriminate.
  - simpl. rewrite H. reflexivity.
Qed.

Lemma aya_loop_skips (env : Env) (fm : Dict.dict str) (t : str)
      (a : Dict.dict str) (pre post : list element) (u : element)
      (acc : Dict.dict str * list AyaEntry) (w : World) :
  tag u = py "footer" \/ Spec.has_empty u "text" \/ Spec.lacks u "text" ->
  fold_m (findall "aya" (Element t a (pre ++ u :: post))) acc (aya_step env fm) w =
  fold_m (findall "aya" (Element t a (pre ++ post))) acc (aya_step env fm) w.
Proof.
  intros H. rewrite !findall_app, findall_cons, !fold_m_app.
  unfold bind. destruct (fold_m _ acc (aya_step env fm) w) as [[e|acc'] w']; [reflexivity|].
  destruct (eqs (tag u) (py "aya")) eqn:E; [|reflexivity].
  destruct H as [H|H].
  - rewrite H in E. discriminate.
  - simpl. unfold bind. rewrite aya_step_skips by assumption. reflexivity.
Qed.

(** C10.  A verse unit whose text is the empty string is skipped like
    one without the attribute: it changes nothing in the aya loop, also
    when its index is "0" (the header parser is not called), and the
    chapter is assembled as if the unit were not there.  The same holds
    for a footnote unit whose index or text is empty or missing: the
    chapter is assembled as if it were not there. *)
Theorem empty_attribute_is_skipped
        (env : Env) (name t : str) (a : Dict.dict str)
        (pre post : list element) (u : element) (w : World) :
  (tag u = py "aya" /\ (Spec.has_empty u "text" \/ Spec.lacks u "text")) \/
  (tag u = py "footer" /\
   (Spec.has_empty u "index" \/ Spec.has_empty u "text" \/
    Spec.lacks u "index" \/ Spec.lacks u "text")) ->
  (tag u = py "aya" ->
   forall fm acc, aya_step env fm acc u w = (inr acc, w)) /\
  collect_footers (Element t a (pre ++ u :: post)) =
  collect_footers (Element t a (pre ++ post)) /\
  assemble_sura env name (Element t a (pre ++ u :: post)) w =
  assemble_sura env name (Element t a (pre ++ post)) w.
Proof.
  intros H.
  assert (F : collect_footers (Element t a (pre ++ u :: post)) =
              collect_footers (Element t a (pre ++ post))).
  { apply collect_footers_skips.
    destruct H as [[H _]|[_ H]]; [now left | right].
    unfold Spec.has_empty, Spec.lacks in H.
    destruct H as [H|[H|[H|H]]]; rewrite H; simpl;
      rewrite ?andb_false_r; reflexivity. }
  split; [|split; [exact F|]].
  - intros Ht fm acc. apply aya_step_skips.
    destruct H as [[_ H]|[H _]]; [assumption|].
    rewrite Ht in H. discriminate.
  - unfold assemble_sura. rewrite F. unfold bind at 1 3.
    rewrite aya_loop_skips; [reflexivity|].
    destruct H as [[_ H]|[H _]]; [now right | now left].
Qed.

(** The unit of C10 with index "0" and the empty text, between two verses. *)
Lemma empty_attribute_is_skipped_witness :
  let u := Sample.aya "0" "" in
  let pre := [Sample.aya "1" "first {1}"] in
  let post := [Sample.aya "2" "second"; Sample.footer "1" "note"] in
  assemble_sura Sample.env_two (py "M") (Element (py "sura") [] (pre ++ u :: post))
                Sample.world0 =
  assemble_sura Sample.env_two (py "M") (Element (py "sura") [] (pre ++ post))
                Sample.world0.
Proof.
  intros u pre post.
  apply (empty_attribute_is_skipped Sample.env_two (py "M") (py "sura") []
           pre post u Sample.world0).
  left. split; [reflexivity | left; reflexivity].
Defined.

(* ================================================================== *)
(** * Failures *)
(* ================================================================== *)

Lemma keeps_files_bind {A B} (c : M A) (k : A -> M B) :
  keeps_files c -> (forall a, keeps_files (k a)) -> keeps_files (bind c k).
Proof.
  intros Hc Hk w. unfold bind. specialize (Hc w).
  destruct (c w) as [[e|a] w']; simpl in *; [assumption|].
  now rewrite Hk.
Qed.

Lemma keeps_files_fold_m {A S} (l : list A) (body : S -> A -> M S) :
  (forall s x, keeps_files (body s x)) -> forall s, keeps_files (fold_m l s body).
Proof.
  intros Hb. induction l as [|x l IH]; intros s; simpl.
  - intros w; reflexivity.
  - apply keeps_files_bind; auto.
Qed.

Lemma keeps_files_advanced_analysis (env : Env) (text : str) :
  keeps_files (advanced_analysis env text).
Proof.
  intros w. rewrite advanced_analysis_runs. simpl.
  destruct (fst (analysis_body env text [])); reflexivity.
Qed.

Lemma keeps_files_process_aya (env : Env) (fm : Dict.dict str)
      (idx : option str) (text : str) :
  keeps_files (process_aya env fm idx text).
Proof.
  unfold process_aya. apply keeps_files_bind.
  - apply keeps_files_advanced_analysis.
  - intros res. apply keeps_files_bind; [intros w | intros ts w]; reflexivity.
Qed.

Lemma keeps_files_aya_step (env : Env) (fm : Dict.dict str)
      (acc : Dict.dict str * list AyaEntry) (u : element) :
  keeps_files (aya_step env fm acc u).
Proof.
  unfold aya_step. destruct (attrib_get u "text") as [text|]; [|intros w; reflexivity].
  destruct (negb (truthy text)); [intros w; reflexivity|].
  destruct (is_header _); [intros w; reflexivity|].
  apply keeps_files_bind; [apply keeps_files_process_aya | intros a w; reflexivity].
Qed.

(** Assembling a chapter writes no file. *)
Lemma keeps_files_assemble_sura (env : Env) (name : str) (sura : element) :
  keeps_files (assemble_sura env name sura).
Proof.
  unfold assemble_sura. apply keeps_files_bind.
  - apply keeps_files_fold_m. intros; apply keeps_files_aya_step.
  - intros acc. apply keeps_files_bind.
    + unfold sura_index_value. destruct (attrib_get sura "index") as [s|];
        [|intros w; reflexivity].
      destruct (truthy s && isdigit s); [|intros w; reflexivity].
      destruct (int s); intros w; reflexivity.
    + intros i. apply keeps_files_bind; [intros w | intros ts w]; reflexivity.
Qed.

(** The persister never raises. *)
Lemma save_sura_analysis_returns (env : Env) (out : Dict.dict pyval) (w : World) :
  exists w', save_sura_analysis env out w = (inr tt, w').
Proof.
  unfold save_sura_analysis, try_except, bind, write_json, logger.
  destruct (open_write env (clock w) (output_file_of out)); eexists; reflexivity.
Qed.

(** C6.  The two failure policies.  (1) Writing a chapter never raises.
    (2) If the chapters before [c] went through and assembling [c] raises
    [e], the run ends with [e] raised, the error logged last, and the
    files as they were before [c]: the chapters after [c] are not
    processed, whatever they are.  (3) If the file of chapter [c]
    cannot be written, the error is logged and the loop goes on with the
    chapters after [c]. *)
Theorem failure_policy_is_asymmetric (env : Env) :
  (forall out w, exists w', save_sura_analysis env out w = (inr tt, w')) /\
  (forall file_path root pre c post w w1 w2 e,
      xml_parse env file_path = inr root ->
      findall "sura" root = pre ++ c :: post ->
      sura_loop env (qurantafseer_name_of root) pre
                (logged w [InfoStart file_path]) = (inr tt, w1) ->
      assemble_sura env (qurantafseer_name_of root) c w1 = (inl e, w2) ->
      process_tafsir_file env file_path w =
      (inl e, logged w2 [ErrorProcessing file_path e]) /\
      files w2 = files w1) /\
  (forall name c rest w out w1 e,
      assemble_sura env name c w = (inr out, w1) ->
      open_write env (clock w1) (output_file_of out) = Some e ->
      sura_loop env name (c :: rest) w =
      sura_loop env name rest
                (logged w1 [ErrorSaving
                              (Dict.get_default (py "sura_index") PNone out) e])).
Proof.
  split; [|split].
  - apply save_sura_analysis_returns.
  - intros file_path root pre c post w w1 w2 e Hparse Hsuras Hpre Hc.
    split.
    + unfold process_tafsir_file, bind at 1, logger at 1, try_except.
      unfold bind at 1. rewrite Hparse. simpl lift. unfold ret at 1.
      unfold bind at 1. rewrite Hsuras. unfold sura_loop in *.
      rewrite for_each_app. unfold bind at 1. rewrite Hpre.
      simpl for_each. unfold bind at 1 2. rewrite Hc.
      reflexivity.
    + pose proof (keeps_files_assemble_sura env (qurantafseer_name_of root) c w1) as K.
      rewrite Hc in K. exact K.
  - intros name c rest w out w1 e Hc Hopen.
    unfold sura_loop. simpl for_each. unfold bind at 1 2. rewrite Hc.
    unfold save_sura_analysis, try_except, bind at 1, write_json.
    rewrite Hopen. reflexivity.
Qed.

(** Both policies on one run: the file of chapter 1 cannot be written
    and the run goes on; the index of the second chapter is a
    superscript two, assembling it raises, and the run ends there. *)
Lemma failure_policy_is_asymmetric_witness :
  fst (process_tafsir_file Sample.env_both Sample.file_path Sample.world0) =
  inl ValueError /\
  files (snd (process_tafsir_file Sample.env_both Sample.file_path Sample.world0)) = [] /\
  sura_loop Sample.env_both (py "M") [Sample.sura_1; Sample.sura_3] Sample.world0 =
  sura_loop Sample.env_both (py "M") [Sample.sura_3]
            (logged (ticked (ticked Sample.world0))
                    [ErrorSaving (PInt 1) (OtherError (py "PermissionError"))]).
Proof.
  destruct (failure_policy_is_asymmetric Sample.env_both) as (_ & H2 & H3).
  assert (E : process_tafsir_file Sample.env_both Sample.file_path Sample.world0 =
              (inl ValueError,
               logged (ticked (logged (ticked (ticked
                         (logged Sample.world0 [InfoStart Sample.file_path])))
                         [ErrorSaving (PInt 1) (OtherError (py "PermissionError"))]))
                      [ErrorProcessing Sample.file_path ValueError])).
  { eapply (H2 Sample.file_path Sample.doc_superscript
               [Sample.sura_1] Sample.sura_sup [Sample.sura_3]).
    - reflexivity.
    - reflexivity.
    - vm_compute. reflexivity.
    - vm_compute. reflexivity. }
  split; [|split].
  - rewrite E. reflexivity.
  - rewrite E. reflexivity.
  - set (r := assemble_sura Sample.env_both (py "M") Sample.sura_1 Sample.world0).
    rewrite (H3 (py "M") Sample.sura_1 [Sample.sura_3] Sample.world0
                (match fst r with inr out => out | inl _ => [] end) (snd r)
                (OtherError (py "PermissionError"))).
    + vm_compute. reflexivity.
    + vm_compute. reflexivity.
    + vm_compute. reflexivity.
Defined.

(** What the body of the [try] leaves when the frequency analysis went
    through and the spaCy half failed. *)
Lemma analysis_body_structural_failure (env : Env) (text : str)
      (sw toks : list str) (e : exn) :
  stopwords_words env = inr sw ->
  word_tokenize env (lower text) = inr toks ->
  (nlp env text = inl e \/
   exists doc, nlp env text = inr doc /\ noun_chunks doc = inl e) ->
  analysis_body env text [] =
  (Some e,
   [(py "keywords", py_strs (fst (frequency_analysis sw toks)));
    (py "freq_dist", py_counts (snd (frequency_analysis sw toks)))]).
Proof.
  intros Hsw Htok Hnlp. unfold analysis_body. rewrite Hsw, Htok.
  destruct (frequency_analysis sw toks) as [k f].
  destruct Hnlp as [H | (doc & H & H')]; rewrite H; [|rewrite H']; reflexivity.
Qed.

(** C9 (as amended).  Whatever the annotation services do, the verse
    record is produced, and a failure inside the annotator is caught:
    the annotator returns what it had stored in the record before the
    failure.  When the stopword list and the tokenizer answer and the
    spaCy half fails (the pipeline itself, or its noun phrases), that is
    exactly the keywords and the frequency distribution, the exception
    is logged, and the verse record carries both; the named entities,
    which are computed before the noun phrases but stored after them,
    are not in the record.  When the stopword list or the tokenizer
    fails, nothing had been stored and the annotator returns the empty
    record. *)
Theorem annotator_failure_keeps_partial_results
        (env : Env) (footer_mapping : Dict.dict str) (idx : option str)
        (raw : str) (w : World) :
  let clean := strip (Re.sub marker [] raw) in
  exists entry w',
    process_aya env footer_mapping idx raw w = (inr entry, w') /\
    (forall sw toks e,
        stopwords_words env = inr sw ->
        word_tokenize env (lower clean) = inr toks ->
        (nlp env clean = inl e \/
         exists doc, nlp env clean = inr doc /\ noun_chunks doc = inl e) ->
        advanced_analysis env clean w =
        (inr [(py "keywords", py_strs (fst (frequency_analysis sw toks)));
              (py "freq_dist", py_counts (snd (frequency_analysis sw toks)))],
         logged w [ErrorNLP e]) /\
        Dict.get (py "keywords") (analysis entry) =
        Some (py_strs (fst (frequency_analysis sw toks))) /\
        Dict.get (py "freq_dist") (analysis entry) =
        Some (py_counts (snd (frequency_analysis sw toks))) /\
        Dict.get (py "named_entities") (analysis entry) = None /\
        Dict.get (py "noun_chunks") (analysis entry) = None) /\
    (forall e,
        (stopwords_words env = inl e \/
         exists sw, stopwords_words env = inr sw /\
                    word_tokenize env (lower clean) = inl e) ->
        advanced_analysis env clean w = (inr [], logged w [ErrorNLP e])).
Proof.
  intros clean.
  destruct (process_aya_runs env footer_mapping idx raw w) as (res & w1 & A & E).
  fold clean in A, E. eexists _, _. split; [exact E|]. simpl analysis.
  rewrite advanced_analysis_runs in A. split.
  - intros sw toks e Hsw Htok Hnlp.
    pose proof (analysis_body_structural_failure env clean sw toks e Hsw Htok Hnlp) as B.
    rewrite advanced_analysis_runs. rewrite B in *. simpl in A |- *.
    inversion A; subst res w1. clear A.
    split; [reflexivity|].
    repeat split; rewrite !DictFacts.get_set_other by reflexivity; reflexivity.
  - intros e H. rewrite advanced_analysis_runs.
    assert (B : analysis_body env clean [] = (Some e, [])).
    { unfold analysis_body. destruct H as [H | (sw & H & H')]; rewrite H;
        [|rewrite H']; reflexivity. }
    rewrite B. reflexivity.
Qed.

(** The pipeline fails on every text; the keywords of the sample verse
    are in its record all the same. *)
Lemma annotator_failure_keeps_partial_results_witness :
  exists entry w',
    process_aya Sample.env_failing_nlp [] (Some (py "1"))
                (py "He is Merciful and a Prophet {1}") Sample.world0 =
    (inr entry, w') /\
    Dict.get (py "keywords") (analysis entry) =
    Some (py_strs [py "merciful"; py "prophet"]).
Proof.
  destruct (annotator_failure_keeps_partial_results
              Sample.env_failing_nlp [] (Some (py "1"))
              (py "He is Merciful and a Prophet {1}") Sample.world0)
    as (entry & w' & E & H & _).
  exists entry, w'. split; [exact E|].
  destruct (H [py "he"; py "is"; py "and"; py "a"]
              (Sample.split_spaces [] (py "he is merciful and a prophet"))
              (OtherError (py "RuntimeError")))
    as (_ & K & _).
  - reflexivity.
  - vm_compute. reflexivity.
  - left. reflexivity.
  - rewrite K. vm_compute. reflexivity.
Defined.

(** The pipeline answers with one entity and its noun phrases fail: the
    entity had been computed at the failure point, and the record does
    not have it. *)
Lemma entities_computed_but_not_returned :
  exists doc e entry w',
    nlp Chapter.env_chunks_fail (py "Praise is only for Allah") = inr doc /\
    py_entities (ents doc) =
    PList [PDict [(py "text", PStr (py "Allah")); (py "label", PStr (py "PERSON"))]] /\
    noun_chunks doc = inl e /\
    process_aya Chapter.env_chunks_fail [] (Some (py "1"))
                (py "Praise is only for Allah") Sample.world0 = (inr entry, w') /\
    Dict.get (py "named_entities") (analysis entry) = None /\
    Dict.keys (analysis entry) =
    [py "keywords"; py "freq_dist"; py "themes"; py "advanced_analysis_timestamp"] /\
    log w' = [ErrorNLP e].
Proof.
  eexists _, _, _, _. split; [reflexivity|]. split; [reflexivity|].
  split; [reflexivity|]. split; [vm_compute; reflexivity|].
  repeat split.
Qed.

(* ================================================================== *)
(** * The sample verse and the header parser *)
(* ================================================================== *)

(** C3 (as amended).  The verse "He is Merciful and a Prophet {1}", in a
    chapter whose footnote mapping has "commentary" under "1", gives the
    markers ["1"], the footers {"1": "commentary"} and the themes
    ["prophethood"]: "merciful" has none of "mercy", "compassion",
    "forgiveness" as a substring, so "divine mercy" is not a theme. *)
Theorem sample_verse_record
        (env : Env) (footer_mapping : Dict.dict str) (idx : option str)
        (w : World) :
  Dict.get (py "1") footer_mapping = Some (py "commentary") ->
  exists entry w',
    process_aya env footer_mapping idx
                (py "He is Merciful and a Prophet {1}") w = (inr entry, w') /\
    Dict.get (py "themes") (analysis entry) =
    Some (py_strs [py "prophethood"]) /\
    markers entry = [py "1"] /\
    footers entry = [(py "1", py "commentary")].
Proof.
  intros Hfm.
  destruct (process_aya_runs env footer_mapping idx
              (py "He is Merciful and a Prophet {1}") w) as (res & w1 & _ & E).
  eexists _, _. split; [exact E|]. cbn [analysis markers footers].
  split; [|split].
  - rewrite DictFacts.get_set_other by reflexivity.
    rewrite DictFacts.get_set_same. vm_compute. reflexivity.
  - vm_compute. reflexivity.
  - replace (Re.findall marker_group (py "He is Merciful and a Prophet {1}"))
      with [py "1"] by (vm_compute; reflexivity).
    unfold link_footers. cbn [fold_left]. rewrite Hfm. reflexivity.
Qed.

Lemma sample_verse_record_witness :
  exists entry w',
    process_aya Sample.env_two [(py "1", py "commentary")] (Some (py "1"))
                (py "He is Merciful and a Prophet {1}") Sample.world0 =
    (inr entry, w') /\
    Dict.get (py "themes") (analysis entry) = Some (py_strs [py "prophethood"]).
Proof.
  destruct (sample_verse_record Sample.env_two [(py "1", py "commentary")]
              (Some (py "1")) Sample.world0)
    as (entry & w' & E & T & _).
  - reflexivity.
  - exists entry, w'. split; [exact E | exact T].
Defined.

(** The themes of the sample verse do not include "divine mercy". *)
Lemma sample_verse_has_no_divine_mercy :
  extract_themes (py "He is Merciful and a Prophet") = [py "prophethood"] /\
  ~ In (py "divine mercy")
       (extract_themes (strip (Re.sub marker [] (py "He is Merciful and a Prophet {1}")))).
Proof.
  split.
  - vm_compute. reflexivity.
  - vm_compute. intros [H|[]]. discriminate H.
Qed.

(** C4 (as amended).  The sample header parses to its three fields.  A
    header text none of whose templates matches gives the single field
    [raw], holding the text with the surrounding whitespace trimmed;
    [parse_sura_info] is a total function, there is no error. *)
Theorem header_parse :
  parse_sura_info
    (py "1. Surah Al Fatihah Name {The Opening} Theme {Divine Mercy}") =
  [ (py "name", py "Surah Al Fatihah");
    (py "description", py "The Opening");
    (py "theme", py "Divine Mercy") ] /\
  (forall text,
      Re.search pattern_simple (strip text) = None ->
      Re.search pattern_background (strip text) = None ->
      parse_sura_info text = [(py "raw", strip text)]).
Proof.
  split.
  - vm_compute. reflexivity.
  - intros text H1 H2. unfold parse_sura_info, patterns. simpl.
    rewrite H1, H2. reflexivity.
Qed.

Lemma header_parse_witness :
  parse_sura_info (py " random unrelated string ") =
  [(py "raw", py "random unrelated string")].
Proof.
  destruct header_parse as [_ H].
  rewrite (H (py " random unrelated string ")).
  - vm_compute. reflexivity.
  - vm_compute. reflexivity.
  - vm_compute. reflexivity.
Defined.

(** The second template, with its five fields; it needs the colon after
    "Theme", as without it the first template matches first and takes the
    text up to the brace before "Theme" as the description. *)
Example header_with_background :
  parse_sura_info
    (py "2. Al Baqarah Name {The Cow} Historical Background {Madinah} Theme: {Guidance} Topics and their Interconnection {Law}") =
  [ (py "name", py "Al Baqarah");
    (py "description", py "The Cow");
    (py "historical_background", py "Madinah");
    (py "theme", py "Guidance");
    (py "topics_interconnection", py "Law") ].
Proof. vm_compute. reflexivity. Qed.

Example header_with_background_shadowed :
  parse_sura_info
    (py "2. Al Baqarah Name {The Cow} Historical Background {Madinah} Theme {Guidance} Topics and their Interconnection {Law}") =
  [ (py "name", py "Al Baqarah");
    (py "description", py "The Cow} Historical Background {Madinah");
    (py "theme", py "Guidance") ].
Proof. vm_compute. reflexivity. Qed.

(** A header text with a leading blank matches no template, and its
    [raw] field is not the text as given. *)
Lemma header_raw_is_trimmed :
  Re.search pattern_simple (py " intro") = None /\
  Re.search pattern_background (py " intro") = None /\
  parse_sura_info (py " intro") = [(py "raw", py "intro")] /\
  parse_sura_info (py " intro") <> [(py "raw", py " intro")].
Proof.
  repeat split; try (vm_compute; reflexivity).
  vm_compute. discriminate.
Qed.

(* ================================================================== *)
(** * The chapter index and the file name *)
(* ================================================================== *)

Lemma isdecimal_plain (c : ascii) :
  isdecimal c = true ->
  isspace c = false /\ eqc c "-"%char = false /\ eqc c "+"%char = false /\
  isdigit_char c = true.
Proof.
  destruct c as [[] [] [] [] [] [] [] []]; vm_compute; intuition congruence.
Qed.

Lemma strip_decimal (s : str) : forallb isdecimal s = true -> strip s = s.
Proof.
  intros H. unfold strip, lstrip, rstrip.
  assert (D : forall t, forallb isdecimal t = true -> dropwhile isspace t = t).
  { intros [|c t] Ht; [reflexivity|]. simpl in *.
    apply andb_true_iff in Ht as [Hc _].
    apply isdecimal_plain in Hc as [-> _]. reflexivity. }
  rewrite (D s H). rewrite D; [apply rev_involutive|].
  apply forallb_forall. intros x Hx.
  rewrite forallb_forall in H. apply H. now apply in_rev.
Qed.

Lemma int_body_decimal (s : str) (acc : Z) (b : bool) :
  forallb isdecimal s = true -> s <> [] \/ b = true ->
  int_body acc b s =
  Some (fold_left (fun a c => (10 * a + digit_value c)%Z) s acc).
Proof.
  revert acc b; induction s as [|c s IH]; intros acc b H Hb; simpl in *.
  - destruct Hb as [Hb|Hb]; [congruence | now rewrite Hb].
  - apply andb_true_iff in H as [Hc Hs]. rewrite Hc. apply IH; auto.
Qed.

Lemma filter_decimal (s : str) :
  forallb isdecimal s = true -> filter isdecimal s = s.
Proof.
  induction s as [|c s IH]; simpl; [reflexivity|].
  intros H. apply andb_true_iff in H as [-> Hs]. now rewrite IH.
Qed.

(** On a non-empty string of decimal digits, [int] only looks at the
    number of digits. *)
Lemma int_all_decimal (s : str) :
  s <> [] -> forallb isdecimal s = true ->
  int s = if length s <=? max_str_digits
          then Some (Spec.decimal_value s) else None.
Proof.
  intros Hne H. unfold int. rewrite (strip_decimal s H).
  destruct s as [|c s]; [congruence|].
  pose proof H as H'. cbn [forallb] in H'. apply andb_true_iff in H' as [Hc _].
  apply isdecimal_plain in Hc as (_ & -> & -> & _).
  unfold int_digits. rewrite (filter_decimal _ H).
  destruct (length (c :: s) <=? max_str_digits); [|reflexivity].
  apply int_body_decimal; auto.
Qed.

(** [int] reads a non-empty string of at most [max_str_digits] decimal
    digits as its value. *)
Lemma int_decimal (s : str) :
  s <> [] -> forallb isdecimal s = true -> length s <= max_str_digits ->
  int s = Some (Spec.decimal_value s).
Proof.
  intros Hne H L. rewrite (int_all_decimal s Hne H).
  apply Nat.leb_le in L. now rewrite L.
Qed.

(** A string of more decimal digits than that is refused. *)
Lemma int_too_long (s : str) :
  forallb isdecimal s = true -> max_str_digits < length s -> int s = None.
Proof.
  intros H L. destruct s as [|c s]; [reflexivity|].
  rewrite (int_all_decimal (c :: s)) by (assumption || discriminate).
  apply Nat.leb_gt in L. now rewrite L.
Qed.

(** A non-empty index made of at most [max_str_digits] decimal digits
    becomes that integer, and the file is named after it. *)
Lemma decimal_index_is_an_integer (s : str) (w : World) :
  s <> [] -> forallb isdecimal s = true -> length s <= max_str_digits ->
  sura_index_value (Some s) w = (inr (PInt (Spec.decimal_value s)), w).
Proof.
  intros Hne H L. unfold sura_index_value.
  assert (T : truthy s && isdigit s = true).
  { destruct s as [|c s]; [congruence|]. simpl truthy. unfold isdigit.
    apply forallb_forall. intros x Hx.
    rewrite forallb_forall in H. now apply isdecimal_plain, H. }
  rewrite T, (int_decimal s Hne H L). reflexivity.
Qed.

(** An index that [isdigit] rejects stays the string it is. *)
Lemma other_index_is_kept (s : str) (w : World) :
  isdigit s = false -> sura_index_value (Some s) w = (inr (PStr s), w).
Proof.
  intros H. unfold sura_index_value. rewrite H, andb_false_r. reflexivity.
Qed.

(** The chapters "2" and "1-3" of the specification. *)
Lemma index_2_and_1_3 :
  let r := process_tafsir_file Sample.env_two Sample.file_path Sample.world0 in
  fst r = inr tt /\
  map fst (files (snd r)) = [py "output/sura_2.json"; py "output/sura_1-3.json"] /\
  map (fun f => match snd f with
                | PDict d => Dict.get (py "sura_index") d
                | _ => None
                end) (files (snd r)) = [Some (PInt 2); Some (PStr (py "1-3"))].
Proof. vm_compute. repeat split. Qed.

(** C8 (the code at the failing input).  The index of the second of
    three chapters is a superscript two: [isdigit] accepts it, [int]
    does not, the [ValueError] ends the run.  The file of the first
    chapter is the only one written; the index is neither turned into
    an integer nor kept as a string. *)
Theorem superscript_index_aborts :
  isdigit Sample.superscript_two = true /\
  int Sample.superscript_two = None /\
  let r := process_tafsir_file Sample.env_superscript Sample.file_path
                               Sample.world0 in
  fst r = inl ValueError /\
  map fst (files (snd r)) = [py "output/sura_1.json"] /\
  last (log (snd r)) InfoCompleted = ErrorProcessing Sample.file_path ValueError.
Proof. vm_compute. repeat split. Qed.

(** Whatever the dict holds under [sura_index], the default "unknown"
    is used only when the key is missing. *)
Lemma sura_index_of_present (out : Dict.dict pyval) (v : pyval) :
  Dict.get (py "sura_index") out = Some v -> sura_index_of out = v.
Proof. intros H. unfold sura_index_of, Dict.get_default. now rewrite H. Qed.

(** The dict a chapter is assembled into always has the key
    [sura_index]; without an index attribute its value is [None], and
    the file name is made from the text [None]. *)
Lemma assembled_without_index (env : Env) (name : str) (sura : element)
      (w : World) (out : Dict.dict pyval) (w' : World) :
  attrib_get sura "index" = None ->
  assemble_sura env name sura w = (inr out, w') ->
  Dict.get (py "sura_index") out = Some PNone /\
  output_file_of out = py "output/sura_None.json".
Proof.
  intros Hidx H. unfold assemble_sura in H. rewrite Hidx in H.
  unfold bind at 1 in H.
  destruct (fold_m _ _ _ w) as [[e|acc] w1]; [discriminate|].
  simpl in H. inversion H; subst. split; reflexivity.
Qed.

(** C5 (the code at the failing input).  A chapter without an index
    attribute is written to [output/sura_None.json]; no file named
    [sura_unknown.json] is written. *)
Theorem missing_index_file_name :
  let r := process_tafsir_file Sample.env_no_index Sample.file_path
                               Sample.world0 in
  fst r = inr tt /\
  map fst (files (snd r)) = [py "output/sura_None.json"] /\
  Dict.mem (py "output/sura_unknown.json") (files (snd r)) = false.
Proof. vm_compute. repeat split. Qed.

(* ================================================================== *)
(** * The two marker patterns *)
(* ================================================================== *)

(** [\d*] followed by something that cannot start with a digit takes all
    the digits there are: giving one back never helps. *)
Lemma rep_greedy_digits (t : str) (i : nat) (K : nat -> str -> option Re.result) :
  (forall j c t', isdecimal c = true -> K j (c :: t') = None) ->
  Re.rep_greedy isdecimal i t K =
  K (i + length (takewhile isdecimal t)) (dropwhile isdecimal t).
Proof.
  intros HK. revert i; induction t as [|c t IH]; intros i; simpl.
  - now rewrite Nat.add_0_r.
  - destruct (isdecimal c) eqn:D; simpl.
    + rewrite IH. replace (S i + length (takewhile isdecimal t))
        with (i + S (length (takewhile isdecimal t))) by lia.
      unfold Re.orelse. destruct (K _ _) eqn:E; [reflexivity|].
      now apply HK.
    + now rewrite Nat.add_0_r.
Qed.

Lemma firstn_takewhile (p : ascii -> bool) (t : str) :
  firstn (length (takewhile p t)) t = takewhile p t.
Proof.
  induction t as [|c t IH]; simpl; [reflexivity|].
  destruct (p c); simpl; [now rewrite IH | reflexivity].
Qed.

Lemma takewhile_dropwhile (p : ascii -> bool) (t : str) :
  takewhile p t ++ dropwhile p t = t.
Proof.
  induction t as [|c t IH]; simpl; [reflexivity|].
  destruct (p c); simpl; [now rewrite IH | reflexivity].
Qed.

Lemma takewhile_all (p : ascii -> bool) (t : str) :
  forallb p (takewhile p t) = true.
Proof.
  induction t as [|c t IH]; simpl; [reflexivity|].
  destruct (p c) eqn:E; simpl; [now rewrite E | reflexivity].
Qed.

Lemma decimal_is_no_brace (c : ascii) :
  isdecimal c = true -> eqc c "}"%char = false /\ eqc c "{"%char = false.
Proof.
  intros H. split.
  - destruct (eqc c "}"%char) eqn:E; [|reflexivity].
    apply eqc_spec in E; subst. discriminate H.
  - destruct (eqc c "{"%char) eqn:E; [|reflexivity].
    apply eqc_spec in E; subst. discriminate H.
Qed.

Ltac marker_match :=
  let c := fresh "c" in let t := fresh "t" in let d := fresh "d" in
  intros i [|c [|d t]]; unfold Re.match_at, Spec.marker_here;
  cbn [Re.seq map py list_ascii_of_string Re.chr Re.run Re.lit Re.plus
       marker_group marker d_plus takewhile dropwhile];
  try reflexivity;
  [ destruct (eqc c "{"%char); reflexivity
  | destruct (eqc c "{"%char); [|reflexivity];
    destruct (isdecimal d) eqn:D; [|reflexivity];
    rewrite rep_greedy_digits
      by (intros j x t' Hx; apply decimal_is_no_brace in Hx as [-> _]; reflexivity);
    destruct (dropwhile isdecimal t) as [|c' rest]; [reflexivity|];
    destruct (eqc c' "}"%char); [|reflexivity] ].

(** The pattern [\{(\d+)\}] matches at the head of a text exactly when a
    marker stands there; its group is the marker's digits. *)
Lemma match_marker_group :
  forall (i : nat) (s : str),
    Re.match_at marker_group i s =
    match Spec.marker_here s with
    | Some (d, _) => Some (i + length d + 2, [d])
    | None => None
    end.
Proof.
  marker_match.
  cbn [app length]. f_equal. f_equal; [lia|].
  replace (S (S i) + length (takewhile isdecimal t) - S i)
    with (S (length (takewhile isdecimal t))) by lia.
  cbn [firstn]. now rewrite firstn_takewhile.
Qed.

(** The same for [\{\d+\}], which has no group. *)
Lemma match_marker :
  forall (i : nat) (s : str),
    Re.match_at marker i s =
    match Spec.marker_here s with
    | Some (d, _) => Some (i + length d + 2, [])
    | None => None
    end.
Proof.
  marker_match.
  cbn [length]. f_equal. f_equal. lia.
Qed.

(** Inside a marker, after its opening brace, there is no opening brace:
    no other marker starts there. *)
Lemma marker_here_no_open (c : ascii) (t d rest : str) :
  Spec.marker_here (c :: t) = Some (d, rest) ->
  Spec.no_open (length d + 1) t = true.
Proof.
  unfold Spec.marker_here, Spec.no_open.
  destruct (eqc c "{"%char); [|discriminate].
  pose proof (takewhile_dropwhile isdecimal t) as TD.
  pose proof (takewhile_all isdecimal t) as TA.
  destruct (takewhile isdecimal t) as [|x digits]; [discriminate|].
  destruct (dropwhile isdecimal t) as [|c' rest']; [discriminate|].
  destruct (eqc c' "}"%char) eqn:E; [|discriminate].
  intros H; inversion H; subst d rest'. rewrite <- TD.
  rewrite firstn_app, firstn_all2 by lia.
  replace (length (x :: digits) + 1 - length (x :: digits)) with 1 by lia.
  cbn [firstn]. rewrite forallb_app. apply andb_true_iff. split.
  - apply forallb_forall. intros y Hy. rewrite forallb_forall in TA.
    apply TA, decimal_is_no_brace in Hy as [_ ->]. reflexivity.
  - apply eqc_spec in E; subst c'. reflexivity.
Qed.

Lemma no_open_cons (n : nat) (c : ascii) (s : str) :
  Spec.no_open (S n) (c :: s) = true ->
  Spec.marker_here (c :: s) = None /\ Spec.no_open n s = true.
Proof.
  unfold Spec.no_open. cbn [firstn forallb]. intros H.
  apply andb_true_iff in H as [Hc Hs]. split; [|assumption].
  unfold Spec.marker_here. destruct (eqc c "{"%char); [discriminate | reflexivity].
Qed.

(** [findall] returns the markers of the text: skipping over a match
    loses nothing, as no marker starts inside another. *)
Lemma finditer_markers (s : str) :
  forall i skip,
    Spec.no_open skip s = true ->
    map (fun m => Re.group m 1) (Re.finditer_from marker_group i skip s) =
    Spec.markers_found s.
Proof.
  induction s as [|c s IH]; intros i skip Hskip; [reflexivity|].
  cbn [Re.finditer_from Spec.markers_found]. destruct skip as [|n].
  - rewrite match_marker_group.
    destruct (Spec.marker_here (c :: s)) as [[d rest]|] eqn:M.
    + cbn [map]. f_equal. apply IH.
      replace (i + length d + 2 - i - 1) with (length d + 1) by lia.
      eapply marker_here_no_open; eassumption.
    + apply IH. reflexivity.
  - apply no_open_cons in Hskip as [-> Hs]. now apply IH.
Qed.

(** [sub] with the empty replacement leaves the characters that no
    marker covers. *)
Lemma sub_markers (s : str) :
  forall i skip,
    Spec.no_open skip s = true ->
    Re.sub_from marker [] i skip s = Spec.without_markers skip s.
Proof.
  induction s as [|c s IH]; intros i skip Hskip; [reflexivity|].
  cbn [Re.sub_from Spec.without_markers]. destruct skip as [|n].
  - rewrite match_marker.
    destruct (Spec.marker_here (c :: s)) as [[d rest]|] eqn:M.
    + replace (i + length d + 2 - i - 1) with (length d + 1) by lia.
      replace (Nat.max 0 (length d + 2)) with (S (length d + 1)) by lia.
      cbn [app]. apply IH. eapply marker_here_no_open; eassumption.
    + cbn [Nat.max]. f_equal. apply IH. reflexivity.
  - apply no_open_cons in Hskip as [-> Hs]. rewrite Nat.max_0_r. now apply IH.
Qed.

Lemma dropwhile_In (p : ascii -> bool) (c : ascii) (s : str) :
  In c (dropwhile p s) -> In c s.
Proof.
  induction s as [|x s IH]; simpl; [tauto|].
  destruct (p x); simpl; auto.
Qed.

Lemma strip_In (c : ascii) (s : str) : In c (strip s) -> In c s.
Proof.
  unfold strip, rstrip, lstrip. intros H.
  apply in_rev, dropwhile_In, in_rev, dropwhile_In in H. exact H.
Qed.

(** When every opening brace opens a marker, removing the markers
    removes every opening brace. *)
Lemma without_markers_no_brace (s : str) :
  forall cover,
    Spec.braces_open_markers s = true ->
    ~ In "{"%char (Spec.without_markers cover s).
Proof.
  induction s as [|c s IH]; intros cover H; [simpl; tauto|].
  cbn [Spec.braces_open_markers] in H. apply andb_true_iff in H as [Hc Hs].
  cbn [Spec.without_markers].
  destruct (eqc c "{"%char) eqn:E.
  - destruct (Spec.marker_here (c :: s)) as [[d rest]|]; [|discriminate].
    replace (Nat.max cover (length d + 2))
      with (S (Nat.max (cover - 1) (length d + 1))) by lia.
    now apply IH.
  - destruct (Nat.max cover _); [|now apply IH].
    intros [H|H]; [|now apply (IH 0)].
    subst c. discriminate E.
Qed.

Lemma contains_marker_has_brace (s : str) :
  Spec.contains_marker s -> In "{"%char s.
Proof.
  intros (before & m & after & (digits & _ & _ & ->) & ->).
  apply in_or_app. right. left. reflexivity.
Qed.

(** C1 (as amended).  For every verse record: the markers are the
    brace-delimited integers of the raw text, one for each place where
    one starts, in order; the clean text is the raw text without the
    characters of those markers, trimmed at both ends and not otherwise
    changed; and the clean text contains no marker when every opening
    brace of the raw text opens a marker. *)
Theorem markers_and_clean_text
        (env : Env) (footer_mapping : Dict.dict str) (idx : option str)
        (text : str) (w : World) :
  exists entry w',
    process_aya env footer_mapping idx text w = (inr entry, w') /\
    raw_text entry = text /\
    markers entry = Spec.markers_found text /\
    clean_text entry = strip (Spec.without_markers 0 text) /\
    (Spec.braces_open_markers text = true ->
     ~ Spec.contains_marker (clean_text entry)).
Proof.
  destruct (process_aya_runs env footer_mapping idx text w) as (res & w1 & _ & E).
  eexists _, _. split; [exact E|]. cbn [raw_text markers clean_text].
  assert (C : Re.sub marker [] text = Spec.without_markers 0 text)
    by (apply sub_markers; reflexivity).
  rewrite C. repeat split.
  - apply finditer_markers. reflexivity.
  - intros H Hm. apply contains_marker_has_brace, strip_In in Hm.
    revert Hm. now apply without_markers_no_brace.
Qed.

(** Two markers in a sentence: the blanks on both sides of the first one
    stay, and no marker is left. *)
Lemma markers_and_clean_text_witness :
  exists entry w',
    process_aya Sample.env_two [] (Some (py "1")) (py "a {1} b {22}")
                Sample.world0 = (inr entry, w') /\
    markers entry = [py "1"; py "22"] /\
    clean_text entry = py "a  b" /\
    ~ Spec.contains_marker (clean_text entry).
Proof.
  destruct (markers_and_clean_text Sample.env_two [] (Some (py "1"))
              (py "a {1} b {22}") Sample.world0)
    as (entry & w' & E & _ & M & C & N).
  exists entry, w'. split; [exact E|]. split; [|split].
  - rewrite M. vm_compute. reflexivity.
  - rewrite C. vm_compute. reflexivity.
  - apply N. vm_compute. reflexivity.
Defined.

(** Removing the marker of "{{1}2}" joins the text around it into the
    marker "{2}", which the clean text then contains. *)
Lemma nested_braces_leave_a_marker :
  exists entry w',
    process_aya Sample.env_two [] (Some (py "1")) (py "{{1}2}")
                Sample.world0 = (inr entry, w') /\
    markers entry = [py "1"] /\
    clean_text entry = py "{2}" /\
    Spec.contains_marker (clean_text entry).
Proof.
  eexists _, _. split; [vm_compute; reflexivity|].
  split; [reflexivity|]. split; [reflexivity|].
  exists [], (py "{2}"), []. split; [|reflexivity].
  exists (py "2"). repeat split. discriminate.
Qed.

(* ================================================================== *)
(** * Counting and ranking the words *)
(* ================================================================== *)

Section Counting.

Lemma count_words_snoc (ws : list str) (x : str) :
  count_words (ws ++ [x]) =
  Dict.set x (Dict.get_default x 0%Z (count_words ws) + 1)%Z (count_words ws).
Proof. unfold count_words. now rewrite fold_left_app. Qed.

Lemma occurrences_snoc (k x : str) (ws : list str) :
  Spec.occurrences k (ws ++ [x]) =
  (Spec.occurrences k ws + (if eqs k x then 1 else 0))%Z.
Proof.
  induction ws as [|y ws IH]; simpl; [lia|]. rewrite IH. lia.
Qed.

Lemma occurrences_absent (k : str) (ws : list str) :
  contains k ws = false -> Spec.occurrences k ws = 0%Z.
Proof.
  unfold contains. induction ws as [|y ws IH]; simpl; [reflexivity|].
  intros H. apply orb_false_iff in H as [-> H]. now rewrite IH.
Qed.

Lemma contains_snoc (k x : str) (ws : list str) :
  contains k (ws ++ [x]) = contains k ws || eqs k x.
Proof. unfold contains. rewrite existsb_app. simpl. now rewrite orb_false_r. Qed.

(** The counter holds, for each word met, how often it was met. *)
Lemma count_words_get (ws : list str) (k : str) :
  Dict.get k (count_words ws) =
  if contains k ws then Some (Spec.occurrences k ws) else None.
Proof.
  induction ws as [|x ws IH] using rev_ind; [reflexivity|].
  rewrite count_words_snoc, contains_snoc, occurrences_snoc.
  destruct (eqs k x) eqn:E.
  - apply eqs_spec in E; subst x. rewrite DictFacts.get_set_same, orb_true_r.
    unfold Dict.get_default. rewrite IH.
    destruct (contains k ws) eqn:C; [reflexivity|].
    now rewrite occurrences_absent.
  - rewrite DictFacts.get_set_other by assumption.
    rewrite IH, orb_false_r, Z.add_0_r. reflexivity.
Qed.

Lemma count_words_keys (ws : list str) (k : str) :
  In k (Dict.keys (count_words ws)) <-> In k ws.
Proof.
  rewrite <- DictFacts.get_In, count_words_get, <- contains_spec.
  destruct (contains k ws); intuition congruence.
Qed.

Lemma count_words_nodup (ws : list str) : NoDup (Dict.keys (count_words ws)).
Proof.
  induction ws as [|x ws IH] using rev_ind; [constructor|].
  rewrite count_words_snoc. now apply DictFacts.NoDup_keys_set.
Qed.

Lemma first_index_snoc_old (k x : str) (ws : list str) :
  In k ws -> Spec.first_index k (ws ++ [x]) = Spec.first_index k ws.
Proof.
  induction ws as [|y ws IH]; simpl; [tauto|].
  intros H. destruct (eqs k y) eqn:E; [reflexivity|].
  f_equal. apply IH. apply eqs_neq in E. destruct H; congruence.
Qed.

Lemma first_index_snoc_new (x : str) (ws : list str) :
  ~ In x ws -> Spec.first_index x (ws ++ [x]) = length ws.
Proof.
  induction ws as [|y ws IH]; simpl; intros H.
  - now rewrite eqs_refl.
  - destruct (eqs x y) eqn:E.
    + apply eqs_spec in E. subst. tauto.
    + f_equal. apply IH. tauto.
Qed.

Lemma first_index_bound (k : str) (ws : list str) :
  In k ws -> Spec.first_index k ws < length ws.
Proof.
  induction ws as [|y ws IH]; simpl; [tauto|].
  intros H. destruct (eqs k y) eqn:E; [lia|].
  apply eqs_neq in E. destruct H; [congruence|]. apply IH in H. lia.
Qed.

Lemma StronglySorted_snoc {A} (R : A -> A -> Prop) (l : list A) (x : A) :
  StronglySorted R l -> Forall (fun a => R a x) l -> StronglySorted R (l ++ [x]).
Proof.
  induction 1 as [|a l Hs IH Ha]; intros Hx; simpl.
  - repeat constructor.
  - inversion Hx; subst. constructor; [auto|].
    apply Forall_app. split; [assumption | now constructor].
Qed.

Lemma StronglySorted_among {A} (R R' : A -> A -> Prop) (l : list A) :
  (forall a b, In a l -> In b l -> R a b -> R' a b) ->
  StronglySorted R l -> StronglySorted R' l.
Proof.
  intros H Hs. induction Hs as [|a l Hs IH Ha]; constructor.
  - apply IH. intros; apply H; simpl; auto.
  - rewrite Forall_forall in *. intros b Hb. apply H; simpl; auto.
Qed.

Lemma StronglySorted_firstn {A} (R : A -> A -> Prop) (n : nat) (l : list A) :
  StronglySorted R l -> StronglySorted R (firstn n l).
Proof.
  intros Hs. revert n. induction Hs as [|a l Hs IH Ha]; intros [|n]; simpl;
    try constructor; auto.
  rewrite Forall_forall in *. intros b Hb. apply Ha.
  rewrite <- (firstn_skipn n l). apply in_or_app. now left.
Qed.

Lemma StronglySorted_map {A B} (f : A -> B) (R : B -> B -> Prop) (l : list A) :
  StronglySorted (fun a b => R (f a) (f b)) l -> StronglySorted R (map f l).
Proof.
  induction 1 as [|a l Hs IH Ha]; simpl; constructor; auto.
  rewrite Forall_forall in *. intros b Hb.
  apply in_map_iff in Hb as (x & <- & Hx). auto.
Qed.

Lemma StronglySorted_nodup {A} (R : A -> A -> Prop) (l : list A) :
  (forall a, ~ R a a) -> StronglySorted R l -> NoDup l.
Proof.
  intros Hirr. induction 1 as [|a l Hs IH Ha]; constructor; auto.
  intros Hin. rewrite Forall_forall in Ha. exact (Hirr a (Ha a Hin)).
Qed.

(** The keys of the counter are in the order the words were first met. *)
Lemma count_words_order (ws : list str) :
  StronglySorted (fun a b => Spec.first_index a ws < Spec.first_index b ws)
                 (Dict.keys (count_words ws)).
Proof.
  induction ws as [|x ws IH] using rev_ind; [constructor|].
  rewrite count_words_snoc, DictFacts.keys_set.
  assert (Old : StronglySorted
                  (fun a b => Spec.first_index a (ws ++ [x]) <
                              Spec.first_index b (ws ++ [x]))
                  (Dict.keys (count_words ws))).
  { revert IH. apply StronglySorted_among. intros a b Ha Hb Hab.
    apply (proj1 (count_words_keys ws a)) in Ha.
    apply (proj1 (count_words_keys ws b)) in Hb.
    rewrite (first_index_snoc_old a x ws Ha), (first_index_snoc_old b x ws Hb).
    exact Hab. }
  destruct (contains x (Dict.keys (count_words ws))) eqn:C; [exact Old|].
  apply StronglySorted_snoc; [exact Old|].
  apply contains_false in C. rewrite count_words_keys in C.
  apply Forall_forall. intros a Ha. apply (proj1 (count_words_keys ws a)) in Ha.
  rewrite (first_index_snoc_old a x ws Ha), (first_index_snoc_new x ws C).
  now apply first_index_bound.
Qed.

End Counting.

Section Ranking.

Lemma insert_desc_In (z x : str * Z) (l : list (str * Z)) :
  In z (insert_desc x l) <-> z = x \/ In z l.
Proof.
  induction l as [|y l IH]; simpl; [intuition congruence|].
  destruct (snd x <? snd y)%Z; simpl; [rewrite IH|]; intuition congruence.
Qed.

Lemma sorted_desc_In (z : str * Z) (l : list (str * Z)) :
  In z (sorted_desc l) <-> In z l.
Proof.
  induction l as [|y l IH]; simpl; [tauto|].
  rewrite insert_desc_In, IH. intuition congruence.
Qed.

Variable Q : str * Z -> str * Z -> Prop.

(** Inserting an item that the order [Q] puts before all the others
    keeps the ranking: it goes behind the larger counts only. *)
Lemma insert_desc_ranked (x : str * Z) (l : list (str * Z)) :
  Forall (Q x) l ->
  StronglySorted (Spec.ranked_items Q) l ->
  StronglySorted (Spec.ranked_items Q) (insert_desc x l).
Proof.
  intros Hx Hs. induction Hs as [|y l Hs IH Hy]; simpl.
  - repeat constructor.
  - inversion Hx as [|? ? Qxy Hx']; subst.
    destruct (snd x <? snd y)%Z eqn:E.
    + apply Z.ltb_lt in E. constructor; [auto|].
      apply Forall_forall. intros z Hz. apply insert_desc_In in Hz as [->|Hz].
      * split; [lia | intros; lia].
      * rewrite Forall_forall in Hy. now apply Hy.
    + apply Z.ltb_ge in E. constructor; [now constructor|].
      constructor.
      * split; [exact E | intros _; exact Qxy].
      * rewrite Forall_forall in *. intros z Hz.
        destruct (Hy z Hz) as [Hle _]. split; [lia|].
        intros _. now apply Hx'.
Qed.

(** The sort puts larger counts first and keeps the order [Q] of the
    input among equal counts. *)
Lemma sorted_desc_ranked (l : list (str * Z)) :
  StronglySorted Q l -> StronglySorted (Spec.ranked_items Q) (sorted_desc l).
Proof.
  induction 1 as [|x l Hs IH Hx]; simpl; [constructor|].
  apply insert_desc_ranked; [|assumption].
  rewrite Forall_forall in *. intros z Hz. apply Hx. now apply sorted_desc_In.
Qed.

End Ranking.

(** The ranking of the counted words, before the cut at twenty. *)
Lemma count_words_ranked (words : list str) :
  StronglySorted (Spec.ranks_before words)
                 (Dict.keys (sorted_desc (count_words words))).
Proof.
  apply StronglySorted_map.
  pose proof (count_words_order words) as O.
  assert (O' : StronglySorted
                 (fun p q : str * Z =>
                    Spec.first_index (fst p) words < Spec.first_index (fst q) words)
                 (count_words words)).
  { unfold Dict.keys in O. remember (count_words words) as fc. clear Heqfc.
    induction fc as [|p fc IH]; [constructor|].
    simpl in O. inversion O; subst. constructor; [auto|].
    rewrite Forall_forall in *. intros q Hq. apply H2. now apply in_map. }
  apply sorted_desc_ranked in O'. revert O'.
  apply StronglySorted_among. intros [a na] [b nb] Ha Hb [Hle Hq].
  apply sorted_desc_In, (DictFacts.In_get _ _ _ (count_words_nodup words)) in Ha.
  apply sorted_desc_In, (DictFacts.In_get _ _ _ (count_words_nodup words)) in Hb.
  rewrite count_words_get in Ha, Hb.
  destruct (contains a words); [|discriminate].
  destruct (contains b words); [|discriminate].
  inversion Ha; inversion Hb; subst. simpl in *. split; assumption.
Qed.

Lemma ranks_before_irrefl (words : list str) (a : str) :
  ~ Spec.ranks_before words a a.
Proof. intros [_ H]. specialize (H eq_refl). lia. Qed.

(** What the frequency analysis returns, in one formula. *)
Lemma frequency_analysis_eq (sw toks : list str) :
  let top := firstn 20 (sorted_desc (count_words (filter (Spec.qualifies sw) toks))) in
  frequency_analysis sw toks = (Dict.keys top, top).
Proof.
  intros top. unfold frequency_analysis.
  change (fun word => isalpha word && negb (contains word sw))
    with (Spec.qualifies sw).
  destruct (filter (Spec.qualifies sw) toks) as [|x ws] eqn:W; [reflexivity|].
  fold top. rewrite DictFacts.of_items_nodup; [reflexivity|].
  subst top. unfold Dict.keys. rewrite <- firstn_map.
  apply (StronglySorted_nodup (Spec.ranks_before (x :: ws)));
    [apply ranks_before_irrefl|].
  apply StronglySorted_firstn, count_words_ranked.
Qed.

(** When the stopword list and the tokenizer answer, the record has the
    keywords and the distribution of the frequency analysis, whatever
    the spaCy half does. *)
Lemma analysis_body_frequency (env : Env) (text : str) (sw toks : list str) :
  stopwords_words env = inr sw ->
  word_tokenize env (lower text) = inr toks ->
  let res := snd (analysis_body env text []) in
  Dict.get (py "keywords") res = Some (py_strs (fst (frequency_analysis sw toks))) /\
  Dict.get (py "freq_dist") res = Some (py_counts (snd (frequency_analysis sw toks))).
Proof.
  intros Hsw Htok. unfold analysis_body. rewrite Hsw, Htok.
  destruct (frequency_analysis sw toks) as [k f].
  destruct (nlp env text) as [e|doc]; [split; reflexivity|].
  destruct (noun_chunks doc) as [e|chunks]; split; reflexivity.
Qed.

(** C7.  With the stopword list [sw] and the tokens [toks] of the
    lower-cased text, the words counted are the alphabetic tokens that
    are not stopwords.  The record then has a keyword list and a
    frequency distribution such that: the keywords are the keys of the
    distribution, in its order; there are at most 20; each is
    alphabetic and no stopword; each count is the number of
    occurrences of the word; an earlier keyword is at least as frequent
    as a later one, and of two equally frequent ones the one met first
    among the words comes first; a word that is counted but not a
    keyword only occurs when the list is full; and without any word to
    count both are empty, with no error. *)
Theorem keywords_are_ranked
        (env : Env) (text : str) (w : World) (sw toks : list str) :
  stopwords_words env = inr sw ->
  word_tokenize env (lower text) = inr toks ->
  let words := filter (Spec.qualifies sw) toks in
  exists res w' kws fd,
    advanced_analysis env text w = (inr res, w') /\
    Dict.get (py "keywords") res = Some (py_strs kws) /\
    Dict.get (py "freq_dist") res = Some (py_counts fd) /\
    kws = Dict.keys fd /\
    length kws <= 20 /\
    (forall k, In k kws -> isalpha k = true /\ ~ In k sw) /\
    (forall k n, In (k, n) fd -> n = Spec.occurrences k words) /\
    StronglySorted (Spec.ranks_before words) kws /\
    (forall k, In k words -> ~ In k kws -> length kws = 20) /\
    (words = [] -> kws = [] /\ fd = []).
Proof.
  intros Hsw Htok words.
  pose proof (analysis_body_frequency env text sw toks Hsw Htok) as [K F].
  pose proof (frequency_analysis_eq sw toks) as FA. cbv zeta in FA. fold words in FA.
  rewrite FA in K, F. cbn [fst snd] in K, F.
  set (top := firstn 20 (sorted_desc (count_words words))) in *.
  exists (snd (analysis_body env text [])). eexists. exists (Dict.keys top), top.
  split; [apply advanced_analysis_runs|].
  split; [exact K|]. split; [exact F|]. split; [reflexivity|].
  assert (Top : forall k n, In (k, n) top ->
                            In k words /\ n = Spec.occurrences k words).
  { intros k n H. subst top.
    assert (H' : In (k, n) (sorted_desc (count_words words))).
    { rewrite <- (firstn_skipn 20 (sorted_desc (count_words words))).
      apply in_or_app. now left. }
    apply sorted_desc_In, (DictFacts.In_get _ _ _ (count_words_nodup words)) in H'.
    rewrite count_words_get in H'.
    destruct (contains k words) eqn:C; [|discriminate].
    apply contains_spec in C. inversion H'. split; [assumption | reflexivity]. }
  split; [|split; [|split; [|split; [|split]]]].
  - unfold Dict.keys. rewrite length_map. subst top. apply firstn_le_length.
  - intros k Hk. unfold Dict.keys in Hk. apply in_map_iff in Hk as ([k' n] & <- & Hk).
    apply Top in Hk as [Hk _]. simpl. subst words.
    apply filter_In in Hk as [_ Hq]. unfold Spec.qualifies in Hq.
    apply andb_true_iff in Hq as [Ha Hs]. split; [assumption|].
    apply contains_false. now destruct (contains k' sw).
  - intros k n H. now apply Top.
  - subst top. unfold Dict.keys. rewrite <- firstn_map.
    apply StronglySorted_firstn, count_words_ranked.
  - intros k Hk Hn. unfold Dict.keys. rewrite length_map. subst top.
    destruct (Nat.le_gt_cases 20 (length (sorted_desc (count_words words))))
      as [L|L].
    + rewrite length_firstn. lia.
    + exfalso. apply Hn. rewrite firstn_all2 by lia.
      apply count_words_keys in Hk. unfold Dict.keys in *.
      apply in_map_iff in Hk as (p & <- & Hp). apply in_map.
      now apply sorted_desc_In.
  - intros W. subst top. rewrite W. split; reflexivity.
Qed.

(** A verse with a repeated word: it comes first; the two words met
    once follow in the order of the verse. *)
Lemma keywords_are_ranked_witness :
  exists res w',
    advanced_analysis Sample.env_two (py "Mercy and grace and mercy")
                      Sample.world0 = (inr res, w') /\
    Dict.get (py "keywords") res = Some (py_strs [py "mercy"; py "grace"]) /\
    Dict.get (py "freq_dist") res =
    Some (py_counts [(py "mercy", 2%Z); (py "grace", 1%Z)]).
Proof.
  destruct (keywords_are_ranked Sample.env_two (py "Mercy and grace and mercy")
              Sample.world0 [py "he"; py "is"; py "and"; py "a"]
              (Sample.split_spaces [] (py "mercy and grace and mercy")))
    as (res & w' & kws & fd & E & K & F & _).
  - reflexivity.
  - vm_compute. reflexivity.
  - exists res, w'. split; [exact E|]. clear K F.
    vm_compute in E. inversion E; subst res w'.
    split; vm_compute; reflexivity.
Defined.

(* ================================================================== *)
(** * Further properties: themes *)
(* ================================================================== *)

(** A sequence of literal characters matches exactly a prefix. *)
Lemma run_literal (word : str) :
  forall i s g (k : Re.cont),
    Re.run (Re.seq (map (Re.chr false) word)) i s g k =
    if Text.prefix word s
    then k (i + length word) (skipn (length word) s) g
    else None.
Proof.
  induction word as [|x word IH]; intros i s g k.
  - simpl. now rewrite Nat.add_0_r.
  - destruct word as [|y word].
    + destruct s as [|c s]; [reflexivity|]. simpl.
      destruct (eqc c x); simpl; [|reflexivity].
      now replace (i + 1) with (S i) by lia.
    + change (Re.seq (map (Re.chr false) (x :: y :: word)))
        with (Re.Cat (Re.chr false x) (Re.seq (map (Re.chr false) (y :: word)))).
      destruct s as [|c s]; [reflexivity|].
      cbn [Re.run Re.chr Text.prefix]. destruct (eqc c x); [|reflexivity].
      rewrite IH. cbn [andb length skipn].
      now replace (S i + S (length word)) with (i + S (S (length word))) by lia.
Qed.

(** An alternation of words matches at the head of [s] exactly when one
    of the words stands there. *)
Lemma match_words (words : list str) (i : nat) (s : str) :
  words <> [] ->
  (match Re.match_at (Re.alts (map (fun w => Re.seq (map (Re.chr false) w)) words)) i s
   with Some _ => true | None => false end) =
  existsb (fun w => Text.prefix w s) words.
Proof.
  unfold Re.match_at. induction words as [|w words IH]; intros Hne; [congruence|].
  destruct words as [|w' words].
  - simpl. rewrite run_literal. destruct (Text.prefix w s); reflexivity.
  - change (Re.alts (map (fun w => Re.seq (map (Re.chr false) w)) (w :: w' :: words)))
      with (Re.Alt (Re.seq (map (Re.chr false) w))
                   (Re.alts (map (fun w => Re.seq (map (Re.chr false) w)) (w' :: words)))).
    cbn [Re.run existsb]. rewrite run_literal. unfold Re.orelse.
    destruct (Text.prefix w s); [reflexivity|].
    apply IH. discriminate.
Qed.

Lemma search_anywhere (r : Re.regex) (p : str -> bool) :
  (forall i s, (match Re.match_at r i s with Some _ => true | None => false end) = p s) ->
  forall s i,
    (match Re.search_from r i s with Some _ => true | None => false end) =
    Text.anywhere p s.
Proof.
  intros H. induction s as [|c s IH]; intros i; simpl; rewrite <- (H i).
  - destruct (Re.match_at r i []); reflexivity.
  - unfold Re.orelse. destruct (Re.match_at r i (c :: s)); [reflexivity|]. apply IH.
Qed.

Lemma anywhere_orb (a b : str -> bool) (s : str) :
  Text.anywhere (fun t => a t || b t) s = Text.anywhere a s || Text.anywhere b s.
Proof.
  induction s as [|c s IH]; simpl.
  - now rewrite !orb_false_r.
  - rewrite IH. destruct (a (c :: s)), (b (c :: s)), (Text.anywhere a s); reflexivity.
Qed.

Lemma anywhere_existsb (words : list str) (s : str) :
  Text.anywhere (fun t => existsb (fun w => Text.prefix w t) words) s =
  existsb (fun w => Text.substring w s) words.
Proof.
  unfold Text.substring. induction words as [|w words IH]; cbn [existsb].
  - induction s as [|c s IHs]; simpl; auto.
  - rewrite anywhere_orb, IH. reflexivity.
Qed.

(** Searching for one of several words finds something exactly when one
    of them is a substring. *)
Lemma search_words (words : list str) (s : str) :
  words <> [] ->
  (match Re.search (Re.alts (map (fun w => Re.seq (map (Re.chr false) w)) words)) s
   with Some _ => true | None => false end) =
  existsb (fun w => Text.substring w s) words.
Proof.
  intros Hne. unfold Re.search.
  rewrite (search_anywhere _ (fun t => existsb (fun w => Text.prefix w t) words)).
  - apply anywhere_existsb.
  - intros i t. now apply match_words.
Qed.

(** X1.  The themes of a text are the labels of the table whose words
    include a substring of the lower-cased text, in the order of the
    table, each at most once. *)
Theorem themes_are_substring_matches (text : str) :
  extract_themes text =
  map fst (filter (fun t => existsb (fun w => Text.substring w (lower text)) (snd t))
                  Text.theme_words).
Proof.
  unfold extract_themes, theme_patterns, Text.theme_words.
  cbn [fold_left filter map fst snd].
  repeat match goal with
  | |- context [Re.search (Re.alts [Re.lit false ?a; Re.lit false ?b; Re.lit false ?c]) ?s] =>
      let H := fresh "H" in
      pose proof (search_words [py a; py b; py c] s ltac:(discriminate)) as H;
      change (Re.alts (map (fun w => Re.seq (map (Re.chr false) w)) [py a; py b; py c]))
        with (Re.alts [Re.lit false a; Re.lit false b; Re.lit false c]) in H;
      destruct (Re.search (Re.alts [Re.lit false a; Re.lit false b; Re.lit false c]) s);
      rewrite <- H; clear H
  end; reflexivity.
Qed.

(* ================================================================== *)
(** * Further properties: trimming *)
(* ================================================================== *)

Lemma dropwhile_head (p : ascii -> bool) (s : str) (c : ascii) (rest : str) :
  dropwhile p s = c :: rest -> p c = false.
Proof.
  induction s as [|x s IH]; simpl; [discriminate|].
  destruct (p x) eqn:E; [exact IH|].
  intros H; inversion H; subst; exact E.
Qed.

Lemma dropwhile_length (p : ascii -> bool) (s : str) :
  length (dropwhile p s) <= length s.
Proof.
  induction s as [|x s IH]; simpl; [lia|]. destruct (p x); simpl; lia.
Qed.

(** [rstrip] cuts a tail off. *)
Lemma rstrip_prefix (s : str) : exists tail, s = rstrip s ++ tail.
Proof.
  unfold rstrip. exists (rev (takewhile isspace (rev s))).
  rewrite <- rev_app_distr, takewhile_dropwhile. symmetry. apply rev_involutive.
Qed.

Lemma strip_trimmed (s : str) : Text.trimmed (strip s).
Proof.
  unfold strip. split.
  - intros c rest H. destruct (rstrip_prefix (lstrip s)) as (tail & E).
    rewrite H in E. simpl in E. unfold lstrip in E.
    now apply dropwhile_head in E.
  - intros c init H. unfold rstrip in H.
    apply (f_equal (@rev ascii)) in H.
    rewrite rev_involutive, rev_app_distr in H. simpl in H.
    now apply dropwhile_head in H.
Qed.

Lemma strip_of_trimmed (s : str) : Text.trimmed s -> strip s = s.
Proof.
  intros [Hh Hl]. unfold strip.
  assert (L : lstrip s = s).
  { unfold lstrip. destruct s as [|c s]; [reflexivity|]. simpl.
    now rewrite (Hh c s eq_refl). }
  rewrite L. unfold rstrip.
  destruct (rev s) as [|c r] eqn:R.
  - apply (f_equal (@rev ascii)) in R. rewrite rev_involutive in R. now subst.
  - assert (E : s = rev r ++ [c]).
    { apply (f_equal (@rev ascii)) in R. now rewrite rev_involutive in R. }
    simpl. rewrite (Hl c (rev r) E). simpl. now symmetry.
Qed.

(** [strip] twice is [strip] once. *)
Lemma strip_idempotent (s : str) : strip (strip s) = strip s.
Proof. apply strip_of_trimmed, strip_trimmed. Qed.

Lemma strip_length (s : str) : length (strip s) <= length s.
Proof.
  unfold strip, rstrip, lstrip. rewrite length_rev.
  etransitivity; [apply dropwhile_length|]. rewrite length_rev.
  apply dropwhile_length.
Qed.

Lemma without_markers_length (s : str) :
  forall cover, length (Spec.without_markers cover s) <= length s.
Proof.
  induction s as [|c s IH]; intros cover; [simpl; lia|].
  cbn [Spec.without_markers]. destruct (Nat.max cover _); simpl.
  - specialize (IH 0). lia.
  - specialize (IH n). lia.
Qed.

(** X2.  The clean text of a verse record has no whitespace at either
    end, trimming it again changes nothing, and it is never longer than
    the raw text. *)
Theorem clean_text_is_trimmed
        (env : Env) (footer_mapping : Dict.dict str) (idx : option str)
        (text : str) (w : World) :
  exists entry w',
    process_aya env footer_mapping idx text w = (inr entry, w') /\
    Text.trimmed (clean_text entry) /\
    strip (clean_text entry) = clean_text entry /\
    length (clean_text entry) <= length (raw_text entry).
Proof.
  destruct (process_aya_runs env footer_mapping idx text w) as (res & w1 & _ & E).
  eexists _, _. split; [exact E|]. cbn [clean_text raw_text].
  split; [apply strip_trimmed|]. split; [apply strip_idempotent|].
  etransitivity; [apply strip_length|].
  unfold Re.sub. rewrite sub_markers by reflexivity. apply without_markers_length.
Qed.

(** X3.  The chapter information has one of three shapes: the single
    key [raw]; [name], [description], [theme]; or those with
    [historical_background] and [topics_interconnection].  Every value
    is trimmed. *)
Theorem chapter_info_shape (text : str) :
  (Dict.keys (parse_sura_info text) = [py "raw"] \/
   Dict.keys (parse_sura_info text) =
   [py "name"; py "description"; py "theme"] \/
   Dict.keys (parse_sura_info text) =
   [py "name"; py "description"; py "historical_background"; py "theme";
    py "topics_interconnection"]) /\
  (forall k v, In (k, v) (parse_sura_info text) -> Text.trimmed v).
Proof.
  unfold parse_sura_info, patterns. cbn [first_match].
  destruct (Re.search pattern_simple (strip text)) as [m|].
  - split; [right; left; reflexivity|].
    intros k v H. cbn in H.
    destruct H as [H|[H|[H|[]]]]; inversion H; apply strip_trimmed.
  - destruct (Re.search pattern_background (strip text)) as [m|].
    + split; [right; right; reflexivity|].
      intros k v H. cbn in H.
      destruct H as [H|[H|[H|[H|[H|[]]]]]]; inversion H; apply strip_trimmed.
    + split; [left; reflexivity|].
      intros k v [H|[]]. inversion H. apply strip_trimmed.
Qed.

Lemma chapter_info_shape_witness :
  Text.trimmed (py "The Opening").
Proof.
  apply (proj2 (chapter_info_shape
                  (py "1. Surah Al Fatihah Name { The Opening } Theme {Divine Mercy}"))
               (py "description") (py "The Opening")).
  vm_compute. right. left. reflexivity.
Defined.

(* ================================================================== *)
(** * Further properties: the header *)
(* ================================================================== *)

(** A pattern that starts with [^\d+] finds nothing in a text that does
    not start with a decimal digit. *)
Lemma anchored_number_search (rest : Re.regex) (s : str) :
  (forall c t, s = c :: t -> isdecimal c = false) ->
  Re.search (Re.Cat Re.Bol (Re.Cat d_plus rest)) s = None.
Proof.
  intros H. unfold Re.search.
  assert (Later : forall t i,
             Re.search_from (Re.Cat Re.Bol (Re.Cat d_plus rest)) (S i) t = None).
  { induction t as [|c t IH]; intros i; simpl; [reflexivity|]. apply IH. }
  destruct s as [|c s]; [reflexivity|].
  cbn [Re.search_from]. unfold Re.match_at, d_plus, Re.plus.
  cbn [Re.run Nat.eqb]. rewrite (H c s eq_refl). cbn [Re.orelse]. apply Later.
Qed.

(** X4.  A header text that, once trimmed, does not begin with a decimal
    digit is not parsed: the result is the single field [raw] with the
    trimmed text, whatever names and braces the text contains. *)
Theorem header_needs_leading_number (text : str) :
  (forall c rest, strip text = c :: rest -> isdecimal c = false) ->
  parse_sura_info text = [(py "raw", strip text)].
Proof.
  intros H. unfold parse_sura_info, patterns, pattern_simple, pattern_background.
  cbn [first_match Re.seq].
  rewrite !anchored_number_search by exact H. reflexivity.
Qed.

Lemma header_needs_leading_number_witness :
  parse_sura_info (py "Surah Al Fatihah Name {The Opening} Theme {Divine Mercy}") =
  [(py "raw", py "Surah Al Fatihah Name {The Opening} Theme {Divine Mercy}")].
Proof.
  rewrite header_needs_leading_number.
  - vm_compute. reflexivity.
  - intros c rest H. vm_compute in H. inversion H. reflexivity.
Defined.

(* ================================================================== *)
(** * Further properties: markers *)
(* ================================================================== *)

Lemma marker_here_digits (s d rest : str) :
  Spec.marker_here s = Some (d, rest) ->
  d <> [] /\ forallb isdecimal d = true.
Proof.
  unfold Spec.marker_here. destruct s as [|c t]; [discriminate|].
  destruct (eqc c "{"%char); [|discriminate].
  pose proof (takewhile_all isdecimal t) as TA.
  destruct (takewhile isdecimal t) as [|x digits]; [discriminate|].
  destruct (dropwhile isdecimal t) as [|c' rest']; [discriminate|].
  destruct (eqc c' "}"%char); [|discriminate].
  intros H; inversion H; subst. split; [discriminate | exact TA].
Qed.

Lemma markers_found_digits (s : str) :
  Forall (fun m => m <> [] /\ forallb isdecimal m = true) (Spec.markers_found s).
Proof.
  induction s as [|c s IH]; [constructor|].
  cbn [Spec.markers_found].
  destruct (Spec.marker_here (c :: s)) as [[d rest]|] eqn:M; [|exact IH].
  constructor; [|exact IH]. eapply marker_here_digits; eassumption.
Qed.

(** X5.  Every marker of a verse record is a non-empty string of
    decimal digits (the braces are not part of it), and there are no
    more markers than opening braces in the raw text. *)
Theorem markers_are_digit_strings
        (env : Env) (footer_mapping : Dict.dict str) (idx : option str)
        (text : str) (w : World) :
  exists entry w',
    process_aya env footer_mapping idx text w = (inr entry, w') /\
    Forall (fun m => m <> [] /\ forallb isdecimal m = true) (markers entry) /\
    length (markers entry) <= count_occ ascii_dec text "{"%char.
Proof.
  destruct (process_aya_runs env footer_mapping idx text w) as (res & w1 & _ & E).
  eexists _, _. split; [exact E|]. cbn [markers].
  unfold Re.findall. rewrite finditer_markers by reflexivity.
  split; [apply markers_found_digits|]. clear E res w1.
  induction text as [|c s IH]; [simpl; lia|].
  cbn [Spec.markers_found count_occ].
  destruct (Spec.marker_here (c :: s)) as [[d rest]|] eqn:M.
  - unfold Spec.marker_here in M. destruct (eqc c "{"%char) eqn:C; [|discriminate].
    apply eqc_spec in C. subst c.
    destruct (ascii_dec "{" "{"); [|congruence]. simpl. lia.
  - destruct (ascii_dec c "{"); lia.
Qed.

Lemma no_brace_no_marker (s : str) :
  ~ In "{"%char s ->
  Spec.markers_found s = [] /\ Spec.without_markers 0 s = s.
Proof.
  induction s as [|c s IH]; intros H; [split; reflexivity|].
  assert (C : eqc c "{"%char = false).
  { destruct (eqc c "{"%char) eqn:E; [|reflexivity].
    apply eqc_spec in E. subst. exfalso. apply H. now left. }
  destruct IH as [IH1 IH2]; [intros Hin; apply H; now right|].
  cbn [Spec.markers_found Spec.without_markers].
  unfold Spec.marker_here. rewrite C. cbn [Nat.max]. now rewrite IH1, IH2.
Qed.

(** X6.  A verse text without an opening brace has no markers and no
    footers, and its clean text is the raw text trimmed. *)
Theorem verse_without_braces
        (env : Env) (footer_mapping : Dict.dict str) (idx : option str)
        (text : str) (w : World) :
  ~ In "{"%char text ->
  exists entry w',
    process_aya env footer_mapping idx text w = (inr entry, w') /\
    markers entry = [] /\
    footers entry = [] /\
    clean_text entry = strip text.
Proof.
  intros H.
  destruct (process_aya_runs env footer_mapping idx text w) as (res & w1 & _ & E).
  destruct (no_brace_no_marker text H) as [M C].
  eexists _, _. split; [exact E|]. cbn [markers footers clean_text].
  unfold Re.findall, Re.sub.
  rewrite finditer_markers, sub_markers by reflexivity.
  rewrite M, C. repeat split.
Qed.

Lemma verse_without_braces_witness :
  exists entry w',
    process_aya Sample.env_two [(py "1", py "note")] (Some (py "2"))
                (py " the Lord of the Universe} 1 ") Sample.world0 =
    (inr entry, w') /\
    markers entry = [] /\
    clean_text entry = py "the Lord of the Universe} 1".
Proof.
  destruct (verse_without_braces Sample.env_two [(py "1", py "note")]
              (Some (py "2")) (py " the Lord of the Universe} 1 ") Sample.world0)
    as (entry & w' & E & M & _ & C).
  - vm_compute. intuition discriminate.
  - exists entry, w'. split; [exact E|]. split; [exact M|].
    rewrite C. vm_compute. reflexivity.
Defined.

(* ================================================================== *)
(** * Further properties: the analysis of a verse *)
(* ================================================================== *)

(** The keys that the body of the [try] has stored when it ends. *)
Lemma analysis_body_keys (env : Env) (text : str) :
  let base := Dict.keys (snd (analysis_body env text [])) in
  base = [] \/
  base = [py "keywords"; py "freq_dist"] \/
  base = [py "keywords"; py "freq_dist"; py "named_entities"; py "noun_chunks"].
Proof.
  unfold analysis_body.
  destruct (stopwords_words env) as [e|sw]; [left; reflexivity|].
  destruct (word_tokenize env (lower text)) as [e|toks]; [left; reflexivity|].
  destruct (frequency_analysis sw toks) as [k f].
  destruct (nlp env text) as [e|doc]; [right; left; reflexivity|].
  destruct (noun_chunks doc) as [e|chunks]; right; [left | right]; reflexivity.
Qed.

(** X7.  Whatever the annotation services do, the analysis of a verse
    record has the keys the annotator stored (none; the two of the
    frequency analysis; or those and the two of the spaCy half), then
    [themes], then [advanced_analysis_timestamp]; the themes are those
    of the clean text, the timestamp is the clock's, and index and raw
    text are the unit's. *)
Theorem analysis_has_themes_and_timestamp
        (env : Env) (footer_mapping : Dict.dict str) (idx : option str)
        (text : str) (w : World) :
  exists entry w',
    process_aya env footer_mapping idx text w = (inr entry, w') /\
    aya_index entry = idx /\ raw_text entry = text /\
    (exists base,
        Dict.keys (analysis entry) =
        base ++ [py "themes"; py "advanced_analysis_timestamp"] /\
        (base = [] \/
         base = [py "keywords"; py "freq_dist"] \/
         base = [py "keywords"; py "freq_dist"; py "named_entities";
                 py "noun_chunks"])) /\
    Dict.get (py "themes") (analysis entry) =
    Some (py_strs (extract_themes (clean_text entry))) /\
    Dict.get (py "advanced_analysis_timestamp") (analysis entry) =
    Some (PStr (isoformat_now env (clock w))) /\
    clock w' = S (clock w).
Proof.
  destruct (process_aya_runs env footer_mapping idx text w) as (res & w1 & A & E).
  eexists _, _. split; [exact E|]. cbn [aya_index raw_text analysis clean_text].
  rewrite advanced_analysis_runs in A.
  assert (W : clock w1 = clock w).
  { inversion A. destruct (fst (analysis_body env _ [])); reflexivity. }
  assert (R : res = snd (analysis_body env (strip (Re.sub marker [] text)) []))
    by (inversion A; reflexivity).
  split; [reflexivity|]. split; [reflexivity|].
  split; [|split; [|split]].
  - exists (Dict.keys res). split.
    + pose proof (analysis_body_keys env (strip (Re.sub marker [] text))) as K.
      cbv zeta in K. rewrite <- R in K.
      rewrite !DictFacts.keys_set.
      destruct K as [K|[K|K]]; rewrite K; reflexivity.
    + rewrite R. apply analysis_body_keys.
  - rewrite DictFacts.get_set_other by reflexivity. apply DictFacts.get_set_same.
  - rewrite DictFacts.get_set_same, W. reflexivity.
  - simpl. now rewrite W.
Qed.

(* ================================================================== *)
(** * Further properties: the footnotes of a chapter *)
(* ================================================================== *)

Lemma last_cons {A} (x d : A) (l : list A) : last (x :: l) d = last l x.
Proof.
  revert x d; induction l as [|y l IH]; intros x d; [reflexivity|].
  change (last (x :: y :: l) d) with (last (y :: l) d).
  now rewrite (IH y d), (IH y x).
Qed.

Lemma last_default_or_In {A} (l : list A) (d : A) :
  last l d = d \/ In (last l d) l.
Proof.
  revert d; induction l as [|x l IH]; intros d; [now left|].
  rewrite last_cons. right.
  destruct (IH x) as [H|H]; [left; now symmetry | right; assumption].
Qed.

Lemma collect_footers_get (l : list element) (acc : Dict.dict str) (k : str) :
  Dict.get k
    (fold_left (fun footer_mapping child =>
                  let f_index := attrib_get child "index" in
                  let f_text := attrib_get child "text" in
                  if truthy_opt f_index && truthy_opt f_text then
                    match f_index, f_text with
                    | Some i, Some t => Dict.set i t footer_mapping
                    | _, _ => footer_mapping
                    end
                  else footer_mapping) l acc) =
  last (map (fun u => attrib_get u "text")
            (filter (fun u =>
                       truthy_opt (attrib_get u "index")
                       && truthy_opt (attrib_get u "text")
                       && match attrib_get u "index" with
                          | Some i => eqs k i
                          | None => false
                          end) l))
       (Dict.get k acc).
Proof.
  revert acc; induction l as [|u l IH]; intros acc; [reflexivity|].
  cbn [fold_left filter]. rewrite IH. cbv zeta.
  destruct (attrib_get u "index") as [i|]; [|reflexivity].
  destruct (attrib_get u "text") as [t|] eqn:T;
    [|cbn [truthy_opt]; rewrite andb_false_r; reflexivity].
  destruct (truthy_opt (Some i) && truthy_opt (Some t)); [|reflexivity].
  cbn [andb]. destruct (eqs k i) eqn:E.
  - apply eqs_spec in E. subst i. cbn [map]. rewrite last_cons, T.
    now rewrite DictFacts.get_set_same.
  - now rewrite DictFacts.get_set_other.
Qed.

(** X8.  The footnote mapping of a chapter gives, for a key, the text
    of the last footnote unit of the chapter that has this index (a
    later unit replaces an earlier one), counting only units whose index
    and text are both non-empty; so no key and no text of the mapping
    is empty. *)
Theorem footnote_mapping_last_wins (sura : element) (k : str) :
  Dict.get k (collect_footers sura) =
  last (map (fun u => attrib_get u "text") (Chapter.footers_for k sura)) None /\
  (forall t, Dict.get k (collect_footers sura) = Some t -> k <> [] /\ t <> []).
Proof.
  assert (G : Dict.get k (collect_footers sura) =
              last (map (fun u => attrib_get u "text") (Chapter.footers_for k sura))
                   None).
  { unfold collect_footers, Chapter.footers_for. now rewrite collect_footers_get. }
  split; [exact G|]. intros t H. rewrite G in H.
  destruct (last_default_or_In
              (map (fun u => attrib_get u "text") (Chapter.footers_for k sura)) None)
    as [D|D]; [congruence|].
  rewrite H in D. apply in_map_iff in D as (u & Ht & Hu).
  unfold Chapter.footers_for in Hu. apply filter_In in Hu as [_ Hu].
  rewrite Ht in Hu. destruct (attrib_get u "index") as [i|]; [|discriminate].
  apply andb_true_iff in Hu as [Hu E]. apply andb_true_iff in Hu as [Hi Htx].
  apply eqs_spec in E. subst i.
  split; [destruct k | destruct t]; discriminate.
Qed.

Lemma footnote_mapping_last_wins_witness :
  Dict.get (py "1")
    (collect_footers
       (Sample.sura (Some (py "1"))
          [Sample.footer "1" "old"; Sample.footer "" "lost";
           Sample.footer "2" ""; Sample.footer "1" "new"])) =
  Some (py "new").
Proof.
  destruct (footnote_mapping_last_wins
              (Sample.sura (Some (py "1"))
                 [Sample.footer "1" "old"; Sample.footer "" "lost";
                  Sample.footer "2" ""; Sample.footer "1" "new"])
              (py "1")) as [G _].
  rewrite G. vm_compute. reflexivity.
Defined.

(* ================================================================== *)
(** * Further properties: the verses of a chapter *)
(* ================================================================== *)

Lemma saves_app (a b : list event) :
  Chapter.saves (a ++ b) = Chapter.saves a ++ Chapter.saves b.
Proof. unfold Chapter.saves. apply flat_map_app. Qed.

(** What producing a verse record does to the world: one clock read,
    no file, no save record. *)
Lemma process_aya_world (env : Env) (fm : Dict.dict str) (idx : option str)
      (text : str) (w : World) :
  exists entry w',
    process_aya env fm idx text w = (inr entry, w') /\
    raw_text entry = text /\ aya_index entry = idx /\
    clock w' = S (clock w) /\ files w' = files w /\
    Chapter.saves (log w') = Chapter.saves (log w).
Proof.
  destruct (process_aya_runs env fm idx text w) as (res & w1 & A & E).
  eexists _, _. split; [exact E|]. rewrite advanced_analysis_runs in A.
  inversion A as [[R W]].
  destruct (fst (analysis_body env _ [])); cbn;
    rewrite ?saves_app, ?app_nil_r; repeat split.
Qed.

(** One turn of the aya loop: a header unit with a text sets the
    chapter information, a verse unit with a text adds one record, any
    other unit does nothing. *)
Lemma aya_step_result (env : Env) (fm : Dict.dict str)
      (acc : Dict.dict str * list AyaEntry) (u : element) (w : World) :
  let hdr := Chapter.has_text u && is_header (attrib_get u "index") in
  let verse := Chapter.has_text u && negb (is_header (attrib_get u "index")) in
  exists new w',
    aya_step env fm acc u w =
    (inr (if hdr then parse_sura_info (Chapter.text_of u) else fst acc,
          snd acc ++ new), w') /\
    map raw_text new = (if verse then [Chapter.text_of u] else []) /\
    map aya_index new = (if verse then [attrib_get u "index"] else []) /\
    clock w' = clock w + length new /\ files w' = files w /\
    Chapter.saves (log w') = Chapter.saves (log w).
Proof.
  unfold aya_step, Chapter.has_text, Chapter.text_of.
  destruct (attrib_get u "text") as [text|]; cbn [truthy_opt].
  - destruct (truthy text); cbn [negb andb].
    + destruct (is_header (attrib_get u "index")); cbn [negb].
      * exists [], w. rewrite app_nil_r, Nat.add_0_r. repeat split.
      * destruct (process_aya_world env fm (attrib_get u "index") text w)
          as (entry & w' & E & R & I & C & F & S).
        exists [entry], w'. unfold bind. rewrite E. cbn [map length].
        rewrite R, I, C. repeat split; auto. lia.
    + exists [], w. rewrite app_nil_r, Nat.add_0_r. destruct acc. repeat split.
  - exists [], w. rewrite app_nil_r, Nat.add_0_r. destruct acc. repeat split.
Qed.

(** The whole aya loop. *)
Lemma aya_loop_result (env : Env) (fm : Dict.dict str) (l : list element) :
  forall acc w,
  exists entries w',
    fold_m l acc (aya_step env fm) w =
    (inr (last (map (fun u => parse_sura_info (Chapter.text_of u))
                    (filter (fun u => Chapter.has_text u
                                      && is_header (attrib_get u "index")) l))
               (fst acc),
          snd acc ++ entries), w') /\
    map raw_text entries =
    map Chapter.text_of
        (filter (fun u => Chapter.has_text u
                          && negb (is_header (attrib_get u "index"))) l) /\
    map aya_index entries =
    map (fun u => attrib_get u "index")
        (filter (fun u => Chapter.has_text u
                          && negb (is_header (attrib_get u "index"))) l) /\
    clock w' = clock w + length entries /\ files w' = files w /\
    Chapter.saves (log w') = Chapter.saves (log w).
Proof.
  induction l as [|u l IH]; intros acc w.
  - exists [], w. cbn. rewrite app_nil_r, Nat.add_0_r. destruct acc. repeat split.
  - destruct (aya_step_result env fm acc u w)
      as (new & w1 & E & R & I & C & F & S). cbv zeta in E, R, I.
    cbn [fold_m filter]. unfold bind. rewrite E.
    match goal with
    | |- context [fold_m l ?a _ w1] =>
        destruct (IH a w1) as (entries & w' & E' & R' & I' & C' & F' & S')
    end.
    exists (new ++ entries), w'. rewrite E'. cbn [fst snd].
    rewrite !map_app, R, I, R', I', length_app, <- app_assoc.
    split; [|split; [|split; [|split; [|split]]]]; try congruence; try lia.
    + destruct (Chapter.has_text u && is_header (attrib_get u "index"));
        [cbn [map]; now rewrite last_cons | reflexivity].
    + destruct (Chapter.has_text u && negb (is_header (attrib_get u "index")));
        reflexivity.
    + destruct (Chapter.has_text u && negb (is_header (attrib_get u "index")));
        reflexivity.
Qed.

(* ================================================================== *)
(** * Further properties: the chapter index *)
(* ================================================================== *)

Lemma isdigit_char_plain (c : ascii) :
  isdigit_char c = true ->
  isspace c = false /\ eqc c "-"%char = false /\ eqc c "+"%char = false /\
  eqc c "_"%char = false.
Proof.
  destruct c as [[] [] [] [] [] [] [] []]; vm_compute; intuition congruence.
Qed.

Lemma strip_no_space (s : str) :
  forallb (fun c => negb (isspace c)) s = true -> strip s = s.
Proof.
  intros H. apply strip_of_trimmed. rewrite forallb_forall in H. split.
  - intros c rest E. subst s. specialize (H c (or_introl eq_refl)).
    now destruct (isspace c).
  - intros c init E. subst s.
    assert (Hin : In c (init ++ [c])) by (apply in_or_app; right; now left).
    specialize (H c Hin). now destruct (isspace c).
Qed.

Lemma int_body_superscript (s : str) :
  forall acc b,
    forallb isdigit_char s = true -> forallb isdecimal s = false ->
    int_body acc b s = None.
Proof.
  induction s as [|c s IH]; intros acc b Hd Hn; [discriminate|].
  cbn [forallb] in Hd, Hn. apply andb_true_iff in Hd as [Hc Hs].
  cbn [int_body]. destruct (isdecimal c) eqn:D.
  - apply IH; assumption.
  - apply isdigit_char_plain in Hc as (_ & _ & _ & ->). reflexivity.
Qed.

(** Under the guard [isdigit], [int] reads the strings of at most
    [max_str_digits] decimal digits and rejects all others. *)
Lemma int_of_isdigit (s : str) :
  isdigit s = true ->
  int s = if forallb isdecimal s && (length s <=? max_str_digits)
          then Some (Spec.decimal_value s) else None.
Proof.
  intros H. destruct s as [|c s]; [discriminate|]. unfold isdigit in H.
  destruct (forallb isdecimal (c :: s)) eqn:D.
  - rewrite int_all_decimal by (assumption || discriminate). reflexivity.
  - unfold int. rewrite strip_no_space.
    + pose proof H as H'. cbn [forallb] in H'. apply andb_true_iff in H' as [Hc _].
      apply isdigit_char_plain in Hc as (_ & -> & -> & _).
      unfold int_digits. destruct (_ <=? max_str_digits); [|reflexivity].
      now apply int_body_superscript.
    + apply forallb_forall. intros x Hx. rewrite forallb_forall in H.
      apply H, isdigit_char_plain in Hx as [-> _]. reflexivity.
Qed.

Lemma decimal_value_nonneg (s : str) : (0 <= Spec.decimal_value s)%Z.
Proof.
  unfold Spec.decimal_value.
  assert (G : forall acc, (0 <= acc)%Z ->
              (0 <= fold_left (fun a c => 10 * a + digit_value c) s acc)%Z).
  { induction s as [|c s IH]; intros acc Ha; [exact Ha|].
    cbn [fold_left]. apply IH. unfold digit_value.
    pose proof (Nat2Z.is_nonneg (code c - 48)). lia. }
  apply G. lia.
Qed.

(** X9.  How the index of a chapter is stored: a missing index as
    [None]; an index that [isdigit] rejects (the empty string, "1-3")
    as the string itself; an index of at most [max_str_digits] (4300)
    decimal digits as the integer they write, which is not negative;
    and for any other index that [isdigit] accepts (one with a
    character that is no decimal digit, or one of more than 4300
    decimal digits) a [ValueError] is raised.  The world is not
    changed. *)
Theorem index_value_cases (sura_index : option str) (w : World) :
  sura_index_value sura_index w =
  match sura_index with
  | None => (inr PNone, w)
  | Some s =>
      if isdigit s then
        if forallb isdecimal s && (length s <=? max_str_digits)
        then (inr (PInt (Spec.decimal_value s)), w)
        else (inl ValueError, w)
      else (inr (PStr s), w)
  end /\
  (forall s, (0 <= Spec.decimal_value s)%Z).
Proof.
  split; [|apply decimal_value_nonneg].
  destruct sura_index as [s|]; [|reflexivity]. unfold sura_index_value.
  destruct (isdigit s) eqn:D.
  - assert (T : truthy s = true) by (destruct s; [discriminate | reflexivity]).
    rewrite T, (int_of_isdigit s D). cbn [andb].
    destruct (forallb isdecimal s && (length s <=? max_str_digits)); reflexivity.
  - rewrite andb_false_r. reflexivity.
Qed.

(** An index of 4301 decimal digits is refused, one of 4300 is read. *)
Example long_index_is_refused :
  sura_index_value (Some (repeat "1"%char 4301)) Sample.world0 =
  (inl ValueError, Sample.world0) /\
  fst (sura_index_value (Some ("2"%char :: repeat "0"%char 4299)) Sample.world0) =
  inr (PInt (2 * 10 ^ 4299)).
Proof. split; vm_compute; reflexivity. Qed.

Lemma bad_index_spec (sura : element) (w : World) :
  sura_index_value (attrib_get sura "index") w =
  if Chapter.bad_index sura then (inl ValueError, w)
  else (inr (Chapter.index_py sura), w).
Proof.
  unfold sura_index_value, Chapter.bad_index, Chapter.index_py.
  destruct (attrib_get sura "index") as [s|]; [|reflexivity].
  destruct (isdigit s) eqn:D.
  - assert (T : truthy s = true) by (destruct s; [discriminate | reflexivity]).
    rewrite T. cbn [andb]. destruct (int s); reflexivity.
  - rewrite andb_false_r. reflexivity.
Qed.

(** A chapter is assembled from the result of its aya loop; only a bad
    index stops it. *)
Lemma assemble_sura_result (env : Env) (name : str) (sura : element) (w : World) :
  exists entries w1,
    map raw_text entries = map Chapter.text_of (Chapter.verse_units sura) /\
    map aya_index entries =
    map (fun u => attrib_get u "index") (Chapter.verse_units sura) /\
    clock w1 = clock w + length entries /\ files w1 = files w /\
    Chapter.saves (log w1) = Chapter.saves (log w) /\
    assemble_sura env name sura w =
    if Chapter.bad_index sura then (inl ValueError, w1)
    else
      (inr [ (py "qurantafseer", PStr name);
             (py "sura_index", Chapter.index_py sura);
             (py "sura_info",
              py_dict_str
                (last (map (fun u => parse_sura_info (Chapter.text_of u))
                           (Chapter.header_units sura)) []));
             (py "ayah", PList (map aya_to_py entries));
             (py "metadata",
              PDict [ (py "processed_timestamp",
                       PStr (isoformat_now env (clock w1)));
                      (py "version", PStr (py "2.0")) ]) ],
       ticked w1).
Proof.
  destruct (aya_loop_result env (collect_footers sura) (findall "aya" sura)
              ([], []) w) as (entries & w1 & E & R & I & C & F & S).
  exists entries, w1. repeat (split; [assumption|]).
  unfold assemble_sura. cbv zeta. unfold bind at 1.
  match goal with
  | |- context [fold_m ?l ?a ?b w] =>
      replace (fold_m l a b w) with
        (fold_m (findall "aya" sura) (([], []) : Dict.dict str * list AyaEntry)
                (aya_step env (collect_footers sura)) w) by reflexivity
  end.
  rewrite E.
  unfold bind at 1. rewrite bad_index_spec.
  destruct (Chapter.bad_index sura); reflexivity.
Qed.

(* ================================================================== *)
(** * Further properties: the chapter document *)
(* ================================================================== *)

(** X10.  Unless its index is a bad one, a chapter is assembled, and its
    verse records are those of the verse units that have a non-empty
    text and an index other than "0": one record for each, in document
    order, with the unit's text and index; each costs one clock read,
    and the chapter one more. *)
Theorem verse_records_follow_units
        (env : Env) (name : str) (sura : element) (w : World) :
  Chapter.bad_index sura = false ->
  exists out w' entries,
    assemble_sura env name sura w = (inr out, w') /\
    Dict.get (py "ayah") out = Some (PList (map aya_to_py entries)) /\
    map raw_text entries = map Chapter.text_of (Chapter.verse_units sura) /\
    map aya_index entries =
    map (fun u => attrib_get u "index") (Chapter.verse_units sura) /\
    clock w' = clock w + length (Chapter.verse_units sura) + 1.
Proof.
  intros B.
  destruct (assemble_sura_result env name sura w)
    as (entries & w1 & R & I & C & _ & _ & E).
  rewrite B in E. eexists _, _, entries. split; [exact E|].
  split; [reflexivity|]. split; [exact R|]. split; [exact I|].
  apply (f_equal (@length _)) in R. rewrite !length_map in R.
  cbn [clock ticked]. lia.
Qed.

Lemma verse_records_follow_units_witness :
  exists out w' entries,
    assemble_sura Sample.env_two (py "M")
      (Sample.sura (Some (py "1"))
         [Sample.aya "0" "1. Al Fatihah Name {x} Theme {y}";
          Sample.aya "1-3" "Praise {1}"; Sample.aya "4" "";
          Sample.footer "1" "note"; Sample.aya "5" "Guide us"])
      Sample.world0 = (inr out, w') /\
    Dict.get (py "ayah") out = Some (PList (map aya_to_py entries)) /\
    map raw_text entries = [py "Praise {1}"; py "Guide us"].
Proof.
  destruct (verse_records_follow_units Sample.env_two (py "M")
              (Sample.sura (Some (py "1"))
                 [Sample.aya "0" "1. Al Fatihah Name {x} Theme {y}";
                  Sample.aya "1-3" "Praise {1}"; Sample.aya "4" "";
                  Sample.footer "1" "note"; Sample.aya "5" "Guide us"])
              Sample.world0)
    as (out & w' & entries & E & A & R & _).
  - vm_compute. reflexivity.
  - exists out, w', entries. split; [exact E|]. split; [exact A|].
    rewrite R. vm_compute. reflexivity.
Defined.

(** X11.  The chapter information of an assembled chapter is what the
    header parser gives for the last header unit (index "0", non-empty
    text) of the chapter; without such a unit it is the empty mapping. *)
Theorem chapter_info_is_last_header
        (env : Env) (name : str) (sura : element) (w : World) :
  Chapter.bad_index sura = false ->
  exists out w',
    assemble_sura env name sura w = (inr out, w') /\
    Dict.get (py "sura_info") out =
    Some (py_dict_str
            (last (map (fun u => parse_sura_info (Chapter.text_of u))
                       (Chapter.header_units sura)) [])) /\
    (Chapter.header_units sura = [] ->
     Dict.get (py "sura_info") out = Some (PDict [])).
Proof.
  intros B.
  destruct (assemble_sura_result env name sura w)
    as (entries & w1 & _ & _ & _ & _ & _ & E).
  rewrite B in E. eexists _, _. split; [exact E|].
  split; [reflexivity|]. intros H. cbn. rewrite H. reflexivity.
Qed.

Lemma chapter_info_is_last_header_witness :
  exists out w',
    assemble_sura Sample.env_two (py "M")
      (Sample.sura (Some (py "1"))
         [Sample.aya "0" "first header"; Sample.aya "1" "Praise";
          Sample.aya "0" "second header"])
      Sample.world0 = (inr out, w') /\
    Dict.get (py "sura_info") out =
    Some (PDict [(py "raw", PStr (py "second header"))]).
Proof.
  destruct (chapter_info_is_last_header Sample.env_two (py "M")
              (Sample.sura (Some (py "1"))
                 [Sample.aya "0" "first header"; Sample.aya "1" "Praise";
                  Sample.aya "0" "second header"])
              Sample.world0)
    as (out & w' & E & I & _).
  - vm_compute. reflexivity.
  - exists out, w'. split; [exact E|]. rewrite I. vm_compute. reflexivity.
Defined.

(** X12.  An assembled chapter document has the keys [qurantafseer],
    [sura_index], [sura_info], [ayah], [metadata], in this order; the
    first is the collection name, the second the stored index, and the
    metadata are the time of assembly and the version "2.0".
    Assembling writes no file. *)
Theorem chapter_document_shape
        (env : Env) (name : str) (sura : element) (w : World) :
  Chapter.bad_index sura = false ->
  exists out w',
    assemble_sura env name sura w = (inr out, w') /\
    Dict.keys out = [py "qurantafseer"; py "sura_index"; py "sura_info";
                     py "ayah"; py "metadata"] /\
    Dict.get (py "qurantafseer") out = Some (PStr name) /\
    Dict.get (py "sura_index") out = Some (Chapter.index_py sura) /\
    (exists processed,
        Dict.get (py "metadata") out =
        Some (PDict [ (py "processed_timestamp", PStr processed);
                      (py "version", PStr (py "2.0")) ])) /\
    files w' = files w.
Proof.
  intros B.
  destruct (assemble_sura_result env name sura w)
    as (entries & w1 & _ & _ & _ & F & _ & E).
  rewrite B in E. eexists _, _. split; [exact E|].
  repeat split; try reflexivity; [eexists; reflexivity | exact F].
Qed.

Lemma chapter_document_shape_witness :
  exists out w',
    assemble_sura Sample.env_two (py "M") (Sample.sura (Some (py "007")) [])
                  Sample.world0 = (inr out, w') /\
    Dict.get (py "sura_index") out = Some (PInt 7).
Proof.
  destruct (chapter_document_shape Sample.env_two (py "M")
              (Sample.sura (Some (py "007")) []) Sample.world0)
    as (out & w' & E & _ & _ & I & _).
  - vm_compute. reflexivity.
  - exists out, w'. split; [exact E|]. rewrite I. vm_compute. reflexivity.
Defined.

(* ================================================================== *)
(** * Further properties: writing and the run *)
(* ================================================================== *)

(** The two ways [save_sura_analysis] ends. *)
Lemma save_result (env : Env) (out : Dict.dict pyval) (w : World) :
  save_sura_analysis env out w =
  (inr tt,
   match open_write env (clock w) (output_file_of out) with
   | None =>
       logged (written w (output_file_of out) (PDict out))
              [InfoSaved (sura_index_of out) (output_file_of out)]
   | Some e =>
       logged w [ErrorSaving (Dict.get_default (py "sura_index") PNone out) e]
   end).
Proof.
  unfold save_sura_analysis, try_except, bind, write_json.
  destruct (open_write env (clock w) (output_file_of out)); reflexivity.
Qed.

(** X13.  After a chapter is saved, its file holds the chapter document
    and every other file is what it was; a save that fails changes no
    file.  Either way the persister returns, and the clock is not
    read. *)
Theorem saved_file_holds_document
        (env : Env) (out : Dict.dict pyval) (w : World) :
  exists w',
    save_sura_analysis env out w = (inr tt, w') /\
    clock w' = clock w /\
    (open_write env (clock w) (output_file_of out) = None ->
     Dict.get (output_file_of out) (files w') = Some (PDict out) /\
     forall path, path <> output_file_of out ->
                  Dict.get path (files w') = Dict.get path (files w)) /\
    (forall e, open_write env (clock w) (output_file_of out) = Some e ->
               files w' = files w).
Proof.
  eexists. split; [apply save_result|].
  destruct (open_write env (clock w) (output_file_of out)) as [e|];
    cbn [clock files logged written].
  - split; [reflexivity|]. split; [discriminate | reflexivity].
  - split; [reflexivity|]. split; [|discriminate]. intros _. split.
    + apply DictFacts.get_set_same.
    + intros path N. apply DictFacts.get_set_other. now apply eqs_neq.
Qed.

Lemma saved_file_holds_document_witness :
  exists w',
    save_sura_analysis Sample.env_two [(py "sura_index", PInt 2)]
                       Sample.world0 = (inr tt, w') /\
    Dict.get (py "output/sura_2.json") (files w') =
    Some (PDict [(py "sura_index", PInt 2)]).
Proof.
  destruct (saved_file_holds_document Sample.env_two [(py "sura_index", PInt 2)]
              Sample.world0) as (w' & E & _ & H & _).
  exists w'. split; [exact E|]. apply H. reflexivity.
Defined.

(** The sura loop: it stops at the first bad index; each chapter before
    it leaves one save record, and a file only at its own path. *)
Lemma sura_loop_result (env : Env) (name : str) (suras : list element) :
  forall w,
  exists w',
    sura_loop env name suras w =
    (if existsb Chapter.bad_index suras then inl ValueError else inr tt, w') /\
    Chapter.saves (log w') =
    Chapter.saves (log w) ++ map Chapter.index_py (Chapter.processed suras) /\
    (forall path,
        In path (Dict.keys (files w')) ->
        In path (Dict.keys (files w)) \/
        In path (map (fun s => Chapter.file_name (Chapter.index_py s))
                     (Chapter.processed suras))).
Proof.
  unfold sura_loop. induction suras as [|sura rest IH]; intros w.
  - exists w. cbn. rewrite app_nil_r. repeat split. auto.
  - cbn [for_each existsb Chapter.processed]. unfold bind at 1 2.
    destruct (assemble_sura_result env name sura w)
      as (entries & w1 & _ & _ & _ & F & S & E).
    rewrite E. destruct (Chapter.bad_index sura).
    + exists w1. cbn [orb map]. rewrite app_nil_r, S, F. repeat split. auto.
    + match goal with
      | |- context [save_sura_analysis env ?o _] => remember o as out eqn:Ho
      end.
      assert (I1 : sura_index_of out = Chapter.index_py sura)
        by (subst out; reflexivity).
      assert (I2 : Dict.get_default (py "sura_index") PNone out =
                   Chapter.index_py sura) by (subst out; reflexivity).
      assert (P : output_file_of out =
                  Chapter.file_name (Chapter.index_py sura))
        by (subst out; reflexivity).
      clear Ho E. rewrite save_result, I1, I2, P.
      match goal with
      | |- context [for_each rest ?body ?w2] =>
          remember w2 as w2' eqn:Hw2;
          destruct (IH w2') as (w' & L & S' & F')
      end.
      assert (S2 : Chapter.saves (log w2') =
                   Chapter.saves (log w) ++ [Chapter.index_py sura]).
      { subst w2'. destruct (open_write env _ _);
          cbn [log logged written ticked]; rewrite saves_app, S; reflexivity. }
      assert (F2 : forall path,
                 In path (Dict.keys (files w2')) ->
                 In path (Dict.keys (files w)) \/
                 path = Chapter.file_name (Chapter.index_py sura)).
      { intros path H. subst w2'.
        destruct (open_write env _ _); cbn [files logged written ticked] in H.
        - left. now rewrite <- F.
        - rewrite DictFacts.keys_set in H.
          destruct (contains _ _) in H; [left; now rewrite <- F|].
          apply in_app_or in H as [H|[H|[]]]; [left; now rewrite <- F|].
          right. now symmetry. }
      exists w'. rewrite L. cbn [orb]. split; [reflexivity|]. split.
      * rewrite S', S2, <- app_assoc. reflexivity.
      * intros path H. apply F' in H. destruct H as [H|H]; [|right; now right].
        apply F2 in H. destruct H as [H|H]; [now left|].
        right. left. now symmetry.
Qed.

(** A run on a document that loads. *)
Lemma process_result (env : Env) (file_path : str) (root : element) (w : World) :
  xml_parse env file_path = inr root ->
  let suras := findall "sura" root in
  let bad := existsb Chapter.bad_index suras in
  exists w1,
    process_tafsir_file env file_path w =
    (if bad then inl ValueError else inr tt,
     logged w1 [if bad then ErrorProcessing file_path ValueError
                else InfoCompleted]) /\
    Chapter.saves (log w1) =
    Chapter.saves (log w) ++ map Chapter.index_py (Chapter.processed suras) /\
    (forall path,
        In path (Dict.keys (files w1)) ->
        In path (Dict.keys (files w)) \/
        In path (map (fun s => Chapter.file_name (Chapter.index_py s))
                     (Chapter.processed suras))).
Proof.
  intros Hparse suras bad.
  destruct (sura_loop_result env (qurantafseer_name_of root) suras
              (logged w [InfoStart file_path])) as (w1 & L & S & F).
  exists w1. split; [|split].
  - unfold process_tafsir_file, bind at 1, logger at 1, try_except.
    unfold bind at 1. rewrite Hparse. cbn [lift]. unfold ret at 1.
    unfold bind at 1. fold suras. rewrite L. fold bad.
    destruct bad; reflexivity.
  - rewrite S. cbn [log logged]. rewrite saves_app. cbn. now rewrite app_nil_r.
  - exact F.
Qed.

(** X14.  When the document loads, the run raises exactly when some
    chapter has a bad index (one that [isdigit] accepts and [int]
    rejects); the exception is then a [ValueError] and the last log
    record the processing error, and otherwise the run returns and the
    last log record is the completion.  No failure of the annotation
    services or of the disk ends the run. *)
Theorem run_fails_only_on_bad_index
        (env : Env) (file_path : str) (root : element) (w : World) :
  xml_parse env file_path = inr root ->
  let bad := existsb Chapter.bad_index (findall "sura" root) in
  exists w',
    process_tafsir_file env file_path w =
    (if bad then inl ValueError else inr tt, w') /\
    last (log w') (InfoStart file_path) =
    (if bad then ErrorProcessing file_path ValueError else InfoCompleted).
Proof.
  intros Hparse bad.
  destruct (process_result env file_path root w Hparse) as (w1 & E & _).
  eexists. split; [exact E|]. cbn [log logged]. apply last_last.
Qed.

Lemma run_fails_only_on_bad_index_witness :
  fst (process_tafsir_file Sample.env_failing_nlp Sample.file_path Sample.world0) =
  inr tt.
Proof.
  destruct (run_fails_only_on_bad_index Sample.env_failing_nlp Sample.file_path
              Sample.doc_two Sample.world0 eq_refl) as (w' & E & _).
  rewrite E. vm_compute. reflexivity.
Defined.

(** X15.  When the document loads, the run leaves one save record
    (saved, or error on saving) for each chapter up to the first bad
    index, in document order and with the chapter's stored index, and
    none for the chapters from the bad one on. *)
Theorem save_records_follow_chapters
        (env : Env) (file_path : str) (root : element) (w : World) :
  xml_parse env file_path = inr root ->
  Chapter.saves (log (snd (process_tafsir_file env file_path w))) =
  Chapter.saves (log w) ++
  map Chapter.index_py (Chapter.processed (findall "sura" root)).
Proof.
  intros Hparse.
  destruct (process_result env file_path root w Hparse) as (w1 & E & S & _).
  rewrite E. cbn [snd log logged]. rewrite saves_app, S.
  destruct (existsb _ _); cbn; now rewrite app_nil_r.
Qed.

Lemma save_records_follow_chapters_witness :
  Chapter.saves
    (log (snd (process_tafsir_file Sample.env_both Sample.file_path Sample.world0))) =
  [PInt 1].
Proof.
  rewrite (save_records_follow_chapters Sample.env_both Sample.file_path
             Sample.doc_superscript Sample.world0 eq_refl).
  vm_compute. reflexivity.
Defined.

(** X16.  When the document loads, every file that exists after the run
    either existed before it or is the file of a chapter before the
    first bad index: nothing is written under any other path. *)
Theorem files_only_at_chapter_paths
        (env : Env) (file_path : str) (root : element) (w : World) (path : str) :
  xml_parse env file_path = inr root ->
  In path (Dict.keys (files (snd (process_tafsir_file env file_path w)))) ->
  In path (Dict.keys (files w)) \/
  exists sura,
    In sura (Chapter.processed (findall "sura" root)) /\
    path = path_join OUTPUT_DIR
             (py "sura_" ++ Format.fstring (Chapter.index_py sura) ++ py ".json").
Proof.
  intros Hparse H.
  destruct (process_result env file_path root w Hparse) as (w1 & E & _ & F).
  rewrite E in H. cbn [snd files logged] in H.
  apply F in H. destruct H as [H|H]; [now left|]. right.
  apply in_map_iff in H as (sura & <- & Hs). exists sura. split; [exact Hs | reflexivity].
Qed.

Lemma files_only_at_chapter_paths_witness :
  In (py "output/sura_1.json") (Dict.keys (files Sample.world0)) \/
  exists sura,
    In sura (Chapter.processed (findall "sura" Sample.doc_superscript)) /\
    py "output/sura_1.json" =
    path_join OUTPUT_DIR
      (py "sura_" ++ Format.fstring (Chapter.index_py sura) ++ py ".json").
Proof.
  apply (files_only_at_chapter_paths Sample.env_superscript Sample.file_path
           Sample.doc_superscript Sample.world0 (py "output/sura_1.json") eq_refl).
  vm_compute. left. reflexivity.
Defined.

(** X17.  When the document does not load, the run logs the start and
    the error, raises the loader's exception, and does nothing else:
    no file, no clock read, no call of the annotation services. *)
Theorem load_failure_is_fatal
        (env : Env) (file_path : str) (e : exn) (w : World) :
  xml_parse env file_path = inl e ->
  process_tafsir_file env file_path w =
  (inl e, logged (logged w [InfoStart file_path]) [ErrorProcessing file_path e]).
Proof.
  intros Hparse.
  unfold process_tafsir_file, bind at 1, logger at 1, try_except.
  unfold bind at 1. rewrite Hparse. reflexivity.
Qed.

Lemma load_failure_is_fatal_witness :
  process_tafsir_file Chapter.env_unreadable Sample.file_path Sample.world0 =
  (inl (OtherError (py "OSError")),
   logged (logged Sample.world0 [InfoStart Sample.file_path])
          [ErrorProcessing Sample.file_path (OtherError (py "OSError"))]).
Proof.
  apply (load_failure_is_fatal Chapter.env_unreadable Sample.file_path
           (OtherError (py "OSError")) Sample.world0).
  reflexivity.
Defined.

(* ================================================================== *)
(** * Further properties: the counts *)
(* ================================================================== *)

Lemma total_set (d : Dict.dict Z) (k : str) :
  Text.total (Dict.set k (Dict.get_default k 0 d + 1)%Z d) = (Text.total d + 1)%Z.
Proof.
  unfold Text.total, Dict.get_default.
  induction d as [|[k' v'] d IH]; [reflexivity|].
  cbn [Dict.set Dict.get]. destruct (eqs k k'); cbn [map snd fold_right].
  - lia.
  - rewrite IH. lia.
Qed.

Lemma total_count_words (ws : list str) :
  Text.total (count_words ws) = Z.of_nat (length ws).
Proof.
  induction ws as [|x ws IH] using rev_ind; [reflexivity|].
  rewrite count_words_snoc, total_set, IH, length_app. cbn [length]. lia.
Qed.

Lemma total_insert_desc (x : str * Z) (l : list (str * Z)) :
  Text.total (insert_desc x l) = (snd x + Text.total l)%Z.
Proof.
  unfold Text.total. induction l as [|y l IH]; [reflexivity|].
  cbn [insert_desc]. destruct (snd x <? snd y)%Z; cbn [map fold_right];
    [rewrite IH|]; lia.
Qed.

Lemma total_sorted_desc (l : list (str * Z)) :
  Text.total (sorted_desc l) = Text.total l.
Proof.
  induction l as [|x l IH]; [reflexivity|].
  cbn [sorted_desc]. rewrite total_insert_desc, IH. reflexivity.
Qed.

Lemma occurrences_positive (k : str) (ws : list str) :
  In k ws -> (1 <= Spec.occurrences k ws)%Z.
Proof.
  assert (N : forall l, (0 <= Spec.occurrences k l)%Z).
  { induction l as [|y l IH]; simpl; [lia|]. destruct (eqs k y); lia. }
  induction ws as [|x ws IH]; simpl; [tauto|].
  intros [H|H].
  - subst. rewrite eqs_refl. specialize (N ws). lia.
  - specialize (IH H). destruct (eqs k x); lia.
Qed.

Lemma counted_positive (ws : list str) (k : str) (n : Z) :
  In (k, n) (sorted_desc (count_words ws)) -> In k ws /\ (1 <= n)%Z.
Proof.
  intros H.
  apply sorted_desc_In, (DictFacts.In_get _ _ _ (count_words_nodup ws)) in H.
  rewrite count_words_get in H.
  destruct (contains k ws) eqn:C; [|discriminate].
  apply contains_spec in C. inversion H. split; [assumption|].
  now apply occurrences_positive.
Qed.

Lemma total_firstn (n : nat) (l : list (str * Z)) :
  (forall p, In p l -> (0 <= snd p)%Z) ->
  (0 <= Text.total (firstn n l) <= Text.total l)%Z.
Proof.
  unfold Text.total. revert n; induction l as [|x l IH]; intros n H.
  - rewrite firstn_nil. simpl. lia.
  - assert (Hx : (0 <= snd x)%Z) by (apply H; now left).
    assert (Hl : forall p, In p l -> (0 <= snd p)%Z) by (intros; apply H; now right).
    destruct n as [|n]; cbn [firstn map fold_right].
    + specialize (IH 0 Hl). rewrite firstn_O in IH. simpl in IH. lia.
    + specialize (IH n Hl). lia.
Qed.

(** X18.  In the frequency distribution every word was met among the
    tokens and has a count of at least one; the counts together never
    exceed the number of words counted (the alphabetic tokens that are
    no stopwords), and they add up to exactly that number when there
    are fewer than twenty keywords, that is when nothing was cut off. *)
Theorem counts_add_up (sw toks : list str) :
  let words := filter (Spec.qualifies sw) toks in
  let fd := snd (frequency_analysis sw toks) in
  (forall k n, In (k, n) fd -> In k toks /\ (1 <= n)%Z) /\
  (Text.total fd <= Z.of_nat (length words))%Z /\
  (length fd < 20 -> Text.total fd = Z.of_nat (length words)).
Proof.
  intros words fd. subst fd. rewrite frequency_analysis_eq. cbn [snd].
  fold words.
  assert (In20 : forall p, In p (firstn 20 (sorted_desc (count_words words))) ->
                           In p (sorted_desc (count_words words))).
  { intros p H. rewrite <- (firstn_skipn 20 (sorted_desc _)).
    apply in_or_app. now left. }
  split; [|split].
  - intros k n H. apply In20, counted_positive in H as [H N].
    split; [|exact N]. subst words. now apply filter_In in H as [H _].
  - assert (T : (0 <= Text.total (firstn 20 (sorted_desc (count_words words)))
                   <= Text.total (sorted_desc (count_words words)))%Z).
    { apply total_firstn. intros [k n] H. apply counted_positive in H. simpl. lia. }
    rewrite total_sorted_desc, total_count_words in T. lia.
  - intros L. rewrite length_firstn in L.
    rewrite firstn_all2 by lia.
    now rewrite total_sorted_desc, total_count_words.
Qed.

Lemma counts_add_up_witness :
  Text.total (snd (frequency_analysis
                     [py "and"]
                     [py "mercy"; py "and"; py "grace"; py "and"; py "mercy"; py "7"])) =
  3%Z.
Proof.
  destruct (counts_add_up [py "and"]
              [py "mercy"; py "and"; py "grace"; py "and"; py "mercy"; py "7"])
    as (_ & _ & H).
  rewrite H; [reflexivity|]. vm_compute. lia.
Defined.
